(** * maison: the catalogue and hero-image server (server.js)

    A shallow embedding of the eight route handlers of [server.js] and of
    the two upload helpers, over an explicit world made of the two
    Mongoose collections and the log of uploads issued to Cloudinary.

    What the file does not contain is taken as an explicit environment
    [Env]: what Cloudinary answers to an upload, whether the document
    store fails an operation for a reason of its own (a lost connection,
    an id it cannot cast), the clock, the ObjectId generator, and the
    conversions between strings and numbers of the JavaScript runtime.
    What the two schemas of the file demand of a document (types and
    required paths) is part of the model of [save] and of
    [findByIdAndUpdate]. *)

From Stdlib Require Import PrimFloat ZArith.
From stdpp Require Import gmap strings list sorting.

Local Open Scope string_scope.
Local Open Scope list_scope.
Local Open Scope Z_scope.

(** ** JavaScript values carried by a parsed request body *)

Module Js.

(** A body field is a primitive, or a non-primitive (array or nested
    object) known by its reference only. *)
Inductive Value : Type :=
| Undefined
| Null
| Bool (b : bool)
| Num (f : float)
| Str (s : string)
| Obj (ref : N).

(** [ToBoolean]: what [x ? a : b] and [!x] test. *)
Definition truthy (v : Value) : bool :=
  match v with
  | Undefined | Null => false
  | Bool b => b
  | Num f => negb (PrimFloat.eqb f 0%float || PrimFloat.is_nan f)
  | Str s => negb (String.eqb s "")
  | Obj _ => true
  end.

(** [x === y]: no coercion; numbers compare as IEEE doubles, objects
    by reference. *)
Definition strict_eq (x y : Value) : bool :=
  match x, y with
  | Undefined, Undefined => true
  | Null, Null => true
  | Bool a, Bool b => Bool.eqb a b
  | Num a, Num b => PrimFloat.eqb a b
  | Str a, Str b => String.eqb a b
  | Obj a, Obj b => N.eqb a b
  | _, _ => false
  end.

(** The conversions of the runtime that are not spelled out here. *)
Record Runtime : Type := {
  StringToNumber : string → float;
  ToPrimitive : N → string;
  NumberToString : float → string
}.

(** [Number(v)]. *)
Definition Number (rt : Runtime) (v : Value) : float :=
  match v with
  | Undefined => nan
  | Null => 0%float
  | Bool true => 1%float
  | Bool false => 0%float
  | Num f => f
  | Str s => StringToNumber rt s
  | Obj r => StringToNumber rt (ToPrimitive rt r)
  end.

End Js.

(** ** Data model: the two schemas *)

Abbreviation ObjectId := string (only parsing).
Abbreviation Date := Z (only parsing).
Abbreviation Buffer := (list Byte.byte) (only parsing).

(** [productSchema], with the [_id] and the two timestamps that
    [{ timestamps: true }] adds.  In a stored document [name],
    [category] and [description] hold the value as cast to String (or
    undefined or null where the schema lets them), [price] and
    [quantity] a number that is not NaN. *)
Record Product : Type := {
  _id : ObjectId;
  name : Js.Value;
  category : Js.Value;
  price : float;
  mainImage : string;
  otherImages : list string;
  description : Js.Value;
  quantity : float;
  createdAt : Date;
  updatedAt : Date
}.

(** [heroImageSchema]. *)
Record HeroImage : Type := {
  hero_id : ObjectId;
  imageUrl : string;
  isActive : bool;
  hero_createdAt : Date;
  hero_updatedAt : Date
}.

(** The argument of [findByIdAndUpdate]: [updateData].  The two image
    keys exist only once the handler has assigned them. *)
Record UpdateData : Type := {
  upd_name : Js.Value;
  upd_category : Js.Value;
  upd_price : float;
  upd_description : Js.Value;
  upd_quantity : float;
  upd_mainImage : option string;
  upd_otherImages : option (list string)
}.

(** ** The world and the environment *)

(** The result object Cloudinary hands to the upload callback. *)
Record UploadResult : Type := {
  secure_url : string;
  public_id : string
}.

(** One upload issued to Cloudinary: target folder and bytes sent. *)
Abbreviation UploadCall := (string * list Byte.byte)%type (only parsing).

Record World : Type := {
  Products : gmap ObjectId Product;
  HeroImages : gmap ObjectId HeroImage;
  cloudinary : list UploadCall
}.

(** The operations the handlers issue to the store. *)
Inductive StoreOp : Type :=
| Op_Product_find
| Op_Product_findByIdAndDelete (id : string)
| Op_Product_findByIdAndUpdate (id : string) (upd : UpdateData)
| Op_Product_save (doc : Product)
| Op_HeroImage_find
| Op_HeroImage_findById (id : string)
| Op_HeroImage_findByIdAndDelete (id : string)
| Op_HeroImage_save (doc : HeroImage).

(** What lies outside the file, for the duration of one request.
    [upload_stream log folder buffer] is the pair [(error, result)] that
    Cloudinary passes to the callback, given the uploads issued before.
    [store_rejects op] tells whether the store fails the operation for
    a reason that the schemas do not decide: a lost connection, or an id
    that does not cast to an ObjectId. *)
Record Env : Type := {
  runtime : Js.Runtime;
  now : Date;
  new_ObjectId : ObjectId;
  upload_stream : list UploadCall → string → Buffer → option string * option UploadResult;
  store_rejects : StoreOp → bool
}.

(** What a [catch] clause can receive. *)
Inductive Exn : Type :=
| UploadError (error : option string)
| StoreError (op : StoreOp)
| ValidationError
| CastError
| DuplicateKey (id : ObjectId)
| DocumentNotFound (id : ObjectId)
| TypeError.

Inductive Promise (A : Type) : Type :=
| Resolved (a : A)
| Rejected (e : Exn).
Arguments Resolved {A} a.
Arguments Rejected {A} e.

(** An [async] body: runs on the world, and completes with a value or
    throws. *)
Definition Async (A : Type) : Type := World → World * Promise A.

#[export] Instance Async_ret : MRet Async :=
  λ A a w, (w, Resolved a).

#[export] Instance Async_bind : MBind Async :=
  λ A B k m w,
    match m w with
    | (w', Resolved a) => k a w'
    | (w', Rejected e) => (w', Rejected e)
    end.

Definition throw {A : Type} (e : Exn) : Async A :=
  λ w, (w, Rejected e).

(** [await p]. *)
Definition await {A : Type} (p : Promise A) : Async A :=
  λ w, (w, p).

(** A call that runs to its end without awaiting: it may start work and
    hand back a promise. *)
Definition call {A : Type} (c : World → World * A) : Async A :=
  λ w, let '(w', a) := c w in (w', Resolved a).

(** [try { body } catch (err) { handler }], for a handler that ends in a
    response. *)
Definition try_catch {A : Type} (body : Async A) (handler : Exn → A) : World → World * A :=
  λ w,
    match body w with
    | (w', Resolved a) => (w', a)
    | (w', Rejected e) => (w', handler e)
    end.

(** [l.map(f)] for an [f] that acts on the world: the calls run in the
    order of the elements. *)
Fixpoint map_calls {A B : Type} (f : A → World → World * B) (l : list A)
    (w : World) : World * list B :=
  match l with
  | [] => (w, [])
  | x :: l' =>
      let '(w1, y) := f x w in
      let '(w2, ys) := map_calls f l' w1 in
      (w2, y :: ys)
  end.

(** [Promise.all]: the results in the order of the promises when all
    resolve; otherwise a rejection (the earliest in the list stands for
    the earliest in time). *)
Fixpoint Promise_all {A : Type} (ps : list (Promise A)) : Promise (list A) :=
  match ps with
  | [] => Resolved []
  | Resolved a :: ps' =>
      match Promise_all ps' with
      | Resolved l => Resolved (a :: l)
      | Rejected e => Rejected e
      end
  | Rejected e :: _ => Rejected e
  end.

(** ** HTTP side *)

Record File : Type := {
  originalname : string;
  buffer : Buffer
}.

(** The request as it reaches a route: [parts] are the file parts of a
    multipart body under the field the route names, [None] when the body
    is not multipart. *)
Record Incoming : Type := {
  in_params_id : string;
  in_body : gmap string Js.Value;
  in_parts : option (list File)
}.

(** [req] as the handler sees it, after multer. *)
Record Request : Type := {
  params_id : string;
  body : gmap string Js.Value;
  files : option (list File);
  file : option File
}.

(** [req.body.key]. *)
Definition get (o : gmap string Js.Value) (key : string) : Js.Value :=
  default Js.Undefined (o !! key).

Inductive Json : Type :=
| json_error (error : string)
| json_message (message : string)
| json_null
| json_Product (p : Product)
| json_Products (ps : list Product)
| json_HeroImage (h : HeroImage)
| json_HeroImages (hs : list HeroImage)
| express_error_page.

Record Response : Type := {
  status : nat;
  json : Json
}.

(** [res.status(code).json(v)] and [res.json(v)]. *)
Definition res_status_json (code : nat) (v : Json) : Response :=
  {| status := code; json := v |}.
Definition res_json (v : Json) : Response := res_status_json 200 v.

(** [upload.array(field, maxCount)]: more parts than [maxCount] is a
    [MulterError] ([None]), which skips the handler. *)
Definition upload_array (maxCount : nat) (r : Incoming) : option Request :=
  match in_parts r with
  | None =>
      Some {| params_id := in_params_id r; body := in_body r; files := None; file := None |}
  | Some fs =>
      if decide (length fs ≤ maxCount)%nat
      then Some {| params_id := in_params_id r; body := in_body r; files := Some fs; file := None |}
      else None
  end.

(** [upload.single(field)]. *)
Definition upload_single (r : Incoming) : option Request :=
  match in_parts r with
  | None | Some [] =>
      Some {| params_id := in_params_id r; body := in_body r; files := None; file := None |}
  | Some [f] =>
      Some {| params_id := in_params_id r; body := in_body r; files := None; file := Some f |}
  | Some _ => None
  end.

(** A route: the middleware, then the handler; an error raised by the
    middleware goes to the default error handler of Express. *)
Definition route (mw : Incoming → option Request) (handler : Request → World → World * Response)
    (r : Incoming) (w : World) : World * Response :=
  match mw r with
  | None => (w, res_status_json 500 express_error_page)
  | Some req => handler req w
  end.

Definition no_middleware (r : Incoming) : option Request :=
  Some {| params_id := in_params_id r; body := in_body r; files := None; file := None |}.

(** ** The store: the Mongoose calls the handlers make *)

Definition set_Products (ps : gmap ObjectId Product) (w : World) : World :=
  {| Products := ps; HeroImages := HeroImages w; cloudinary := cloudinary w |}.
Definition set_HeroImages (hs : gmap ObjectId HeroImage) (w : World) : World :=
  {| Products := Products w; HeroImages := hs; cloudinary := cloudinary w |}.
Definition set_cloudinary (log : list UploadCall) (w : World) : World :=
  {| Products := Products w; HeroImages := HeroImages w; cloudinary := log |}.

(** [{ createdAt: -1 }]: [p] may stand before [q]. *)
Definition newest_first (p q : Product) : Prop := (createdAt q ≤ createdAt p)%Z.
Definition hero_newest_first (p q : HeroImage) : Prop :=
  (hero_createdAt q ≤ hero_createdAt p)%Z.

#[export] Instance newest_first_dec p q : Decision (newest_first p q).
Proof. unfold newest_first. apply _. Defined.
#[export] Instance hero_newest_first_dec p q : Decision (hero_newest_first p q).
Proof. unfold hero_newest_first. apply _. Defined.

(** [Product.find().sort({ createdAt: -1 })]. *)
Definition Product_find_sort (env : Env) : Async (list Product) :=
  λ w,
    if store_rejects env Op_Product_find then (w, Rejected (StoreError Op_Product_find))
    else (w, Resolved (merge_sort newest_first (snd <$> map_to_list (Products w)))).

(** [HeroImage.find().sort({ createdAt: -1 })]. *)
Definition HeroImage_find_sort (env : Env) : Async (list HeroImage) :=
  λ w,
    if store_rejects env Op_HeroImage_find then (w, Rejected (StoreError Op_HeroImage_find))
    else (w, Resolved (merge_sort hero_newest_first (snd <$> map_to_list (HeroImages w)))).

(** [Product.findByIdAndDelete(id)]: resolves with the removed document,
    or with null. *)
Definition Product_findByIdAndDelete (env : Env) (id : string) : Async (option Product) :=
  λ w,
    if store_rejects env (Op_Product_findByIdAndDelete id)
    then (w, Rejected (StoreError (Op_Product_findByIdAndDelete id)))
    else (set_Products (delete id (Products w)) w, Resolved (Products w !! id)).

(** [HeroImage.findByIdAndDelete(id)]. *)
Definition HeroImage_findByIdAndDelete (env : Env) (id : string) : Async (option HeroImage) :=
  λ w,
    if store_rejects env (Op_HeroImage_findByIdAndDelete id)
    then (w, Rejected (StoreError (Op_HeroImage_findByIdAndDelete id)))
    else (set_HeroImages (delete id (HeroImages w)) w, Resolved (HeroImages w !! id)).

(** [HeroImage.findById(id)]. *)
Definition HeroImage_findById (env : Env) (id : string) : Async (option HeroImage) :=
  λ w,
    if store_rejects env (Op_HeroImage_findById id)
    then (w, Rejected (StoreError (Op_HeroImage_findById id)))
    else (w, Resolved (HeroImages w !! id)).

(** *** Schema types

    [type: String]: null and undefined pass, a string is kept, a number
    or a boolean becomes its text, and an array or a plain object is a
    cast error ([None]). *)
Definition cast_String (rt : Js.Runtime) (v : Js.Value) : option Js.Value :=
  match v with
  | Js.Undefined => Some Js.Undefined
  | Js.Null => Some Js.Null
  | Js.Bool b => Some (Js.Str (if b then "true" else "false"))
  | Js.Num f => Some (Js.Str (Js.NumberToString rt f))
  | Js.Str s => Some (Js.Str s)
  | Js.Obj _ => None
  end.

(** [required: true] on a String path: a string that is not empty. *)
Definition required_String (v : Js.Value) : bool :=
  match v with
  | Js.Str s => negb (String.eqb s "")
  | _ => false
  end.

(** [type: Number], for a value that is a number already: NaN is a cast
    error; a number satisfies [required: true]. *)
Definition cast_Number (f : float) : option float :=
  if PrimFloat.is_nan f then None else Some f.

(** One key of [$set]: Mongoose strips from an update the keys whose
    value is [undefined], so the stored value stays. *)
Definition set_path (new old : Js.Value) : Js.Value :=
  match new with
  | Js.Undefined => old
  | v => v
  end.

(** The document after [$set] of an [updateData] that has been cast to the
    schema, with [updatedAt] refreshed. *)
Definition apply_update (t : Date) (upd : UpdateData) (p : Product) : Product :=
  {| _id := _id p;
     name := set_path (upd_name upd) (name p);
     category := set_path (upd_category upd) (category p);
     price := upd_price upd;
     mainImage := default (mainImage p) (upd_mainImage upd);
     otherImages := default (otherImages p) (upd_otherImages upd);
     description := set_path (upd_description upd) (description p);
     quantity := upd_quantity upd;
     createdAt := createdAt p;
     updatedAt := t |}.

(** The cast of [updateData] to [productSchema], path by path; a cast
    error on one path fails the whole update.  An update runs no
    [required] validator. *)
Definition cast_update (rt : Js.Runtime) (upd : UpdateData) : option UpdateData :=
  name ← cast_String rt (upd_name upd);
  category ← cast_String rt (upd_category upd);
  price ← cast_Number (upd_price upd);
  description ← cast_String rt (upd_description upd);
  quantity ← cast_Number (upd_quantity upd);
  Some {| upd_name := name; upd_category := category; upd_price := price;
          upd_description := description; upd_quantity := quantity;
          upd_mainImage := upd_mainImage upd; upd_otherImages := upd_otherImages upd |}.

(** [Product.findByIdAndUpdate(id, updateData, { new: true })]: rejects
    when [updateData] does not cast; otherwise resolves with the
    document as updated, or with null when the id is unknown. *)
Definition Product_findByIdAndUpdate (env : Env) (id : string) (upd : UpdateData)
    : Async (option Product) :=
  λ w,
    match cast_update (runtime env) upd with
    | None => (w, Rejected CastError)
    | Some upd =>
        if store_rejects env (Op_Product_findByIdAndUpdate id upd)
        then (w, Rejected (StoreError (Op_Product_findByIdAndUpdate id upd)))
        else
          match Products w !! id with
          | None => (w, Resolved None)
          | Some p =>
              let p' := apply_update (now env) upd p in
              (set_Products (<[id := p']> (Products w)) w, Resolved (Some p'))
          end
    end.

(** [new Product({...})]: the document in memory, with its fresh [_id];
    the timestamps are written by [save]. *)
Definition new_Product (env : Env) (name category : Js.Value) (price quantity : float)
    (description : Js.Value) (mainImage : string) (otherImages : list string) : Product :=
  {| _id := new_ObjectId env;
     name := name; category := category; price := price;
     mainImage := mainImage; otherImages := otherImages;
     description := description; quantity := quantity;
     createdAt := 0; updatedAt := 0 |}.

Definition new_HeroImage (env : Env) (imageUrl : string) (isActive : bool) : HeroImage :=
  {| hero_id := new_ObjectId env;
     imageUrl := imageUrl; isActive := isActive;
     hero_createdAt := 0; hero_updatedAt := 0 |}.

Definition stamp_new (t : Date) (p : Product) : Product :=
  {| _id := _id p; name := name p; category := category p; price := price p;
     mainImage := mainImage p; otherImages := otherImages p;
     description := description p; quantity := quantity p;
     createdAt := t; updatedAt := t |}.

Definition hero_stamp_new (t : Date) (h : HeroImage) : HeroImage :=
  {| hero_id := hero_id h; imageUrl := imageUrl h; isActive := isActive h;
     hero_createdAt := t; hero_updatedAt := t |}.

Definition hero_stamp_modified (t : Date) (h : HeroImage) : HeroImage :=
  {| hero_id := hero_id h; imageUrl := imageUrl h; isActive := isActive h;
     hero_createdAt := hero_createdAt h; hero_updatedAt := t |}.

(** What [productSchema] makes of a document at validation: every path
    cast to its type, [name], [category], [price] and [mainImage]
    required.  [None] is a validation error. *)
Definition validate_Product (rt : Js.Runtime) (doc : Product) : option Product :=
  name ← cast_String rt (name doc);
  category ← cast_String rt (category doc);
  price ← cast_Number (price doc);
  description ← cast_String rt (description doc);
  quantity ← cast_Number (quantity doc);
  if required_String name && required_String category
     && negb (String.eqb (mainImage doc) "")
  then Some {| _id := _id doc; name := name; category := category; price := price;
               mainImage := mainImage doc; otherImages := otherImages doc;
               description := description; quantity := quantity;
               createdAt := createdAt doc; updatedAt := updatedAt doc |}
  else None.

(** [heroImageSchema] at validation: [imageUrl] is required. *)
Definition validate_HeroImage (doc : HeroImage) : bool :=
  negb (String.eqb (imageUrl doc) "").

(** [newProduct.save()] on a new document: validation, then an insert,
    which the store refuses when the [_id] is taken.  Resolves with the
    document as saved (the object the handler holds). *)
Definition Product_save (env : Env) (doc : Product) : Async Product :=
  λ w,
    match validate_Product (runtime env) doc with
    | None => (w, Rejected ValidationError)
    | Some doc =>
        if store_rejects env (Op_Product_save doc)
        then (w, Rejected (StoreError (Op_Product_save doc)))
        else
          match Products w !! _id doc with
          | Some _ => (w, Rejected (DuplicateKey (_id doc)))
          | None =>
              let doc' := stamp_new (now env) doc in
              (set_Products (<[_id doc := doc']> (Products w)) w, Resolved doc')
          end
    end.

(** [hero.save()]: validation, then an insert for a new document; for
    one that was read from the store, the write of its fields with
    [updatedAt] refreshed. *)
Definition HeroImage_save (env : Env) (isNew : bool) (doc : HeroImage) : Async HeroImage :=
  λ w,
    if negb (validate_HeroImage doc) then (w, Rejected ValidationError)
    else if store_rejects env (Op_HeroImage_save doc)
    then (w, Rejected (StoreError (Op_HeroImage_save doc)))
    else if isNew then
      match HeroImages w !! hero_id doc with
      | Some _ => (w, Rejected (DuplicateKey (hero_id doc)))
      | None =>
          let doc' := hero_stamp_new (now env) doc in
          (set_HeroImages (<[hero_id doc := doc']> (HeroImages w)) w, Resolved doc')
      end
    else
      match HeroImages w !! hero_id doc with
      | None => (w, Rejected (DocumentNotFound (hero_id doc)))
      | Some _ =>
          let doc' := hero_stamp_modified (now env) doc in
          (set_HeroImages (<[hero_id doc := doc']> (HeroImages w)) w, Resolved doc')
      end.

(** ** Helpers: upload to Cloudinary *)

(** The body shared by the two helpers: the upload is issued at once,
    and the promise settles with what the callback receives,
    [if (result) resolve(result); else reject(error)]. *)
Definition upload_to (env : Env) (folder : string) (buffer : Buffer)
    (w : World) : World * Promise UploadResult :=
  let settled :=
    match upload_stream env (cloudinary w) folder buffer with
    | (_, Some result) => Resolved result
    | (error, None) => Rejected (UploadError error)
    end in
  (set_cloudinary (cloudinary w ++ [(folder, buffer)]) w, settled).

Definition uploadToCloudinary (env : Env) (buffer : Buffer) :=
  upload_to env "maison_products" buffer.

Definition uploadHeroToCloudinary (env : Env) (buffer : Buffer) :=
  upload_to env "maison_hero" buffer.

(** ** Routes *)

(** [uploadResults[0].secure_url]. *)
Definition first_secure_url (uploadResults : list UploadResult) : Async string :=
  match uploadResults !! 0%nat with
  | Some r => mret (secure_url r)
  | None => throw TypeError
  end.

(** POST /api/products *)
Definition create_product (env : Env) (req : Request) : World → World * Response :=
  try_catch
    (let name := get (body req) "name" in
     let category := get (body req) "category" in
     let price := get (body req) "price" in
     let description := get (body req) "description" in
     let quantity := get (body req) "quantity" in
     match files req with
     | None => mret (res_status_json 400 (json_error "No images uploaded"))
     | Some req_files =>
         if Nat.eqb (length req_files) 0
         then mret (res_status_json 400 (json_error "No images uploaded"))
         else
           promises ← call (map_calls (λ file, uploadToCloudinary env (buffer file)) req_files);
           uploadResults ← await (Promise_all promises);
           mainImage ← first_secure_url uploadResults;
           let otherImages := secure_url <$> drop 1 uploadResults in
           let newProduct :=
             new_Product env name category
               (Js.Number (runtime env) price)
               (if Js.truthy quantity then Js.Number (runtime env) quantity else 0%float)
               description mainImage otherImages in
           saved ← Product_save env newProduct;
           mret (res_status_json 201 (json_Product saved))
     end)
    (λ err, res_status_json 500 (json_error "Server error")).

Definition post_api_products (env : Env) : Incoming → World → World * Response :=
  route (upload_array 5) (create_product env).

(** GET /api/products *)
Definition list_products (env : Env) (req : Request) : World → World * Response :=
  try_catch
    (products ← Product_find_sort env;
     mret (res_json (json_Products products)))
    (λ err, res_status_json 500 (json_error "Server error")).

Definition get_api_products (env : Env) : Incoming → World → World * Response :=
  route no_middleware (list_products env).

(** DELETE /api/products/:id *)
Definition delete_product (env : Env) (req : Request) : World → World * Response :=
  try_catch
    (_ ← Product_findByIdAndDelete env (params_id req);
     mret (res_json (json_message "Product deleted")))
    (λ err, res_status_json 500 (json_error "Server error")).

Definition delete_api_products_id (env : Env) : Incoming → World → World * Response :=
  route no_middleware (delete_product env).

(** PUT /api/products/:id *)
Definition update_product (env : Env) (req : Request) : World → World * Response :=
  try_catch
    (let name := get (body req) "name" in
     let category := get (body req) "category" in
     let price := get (body req) "price" in
     let description := get (body req) "description" in
     let quantity := get (body req) "quantity" in
     let updateData :=
       {| upd_name := name; upd_category := category;
          upd_price := Js.Number (runtime env) price;
          upd_description := description;
          upd_quantity := Js.Number (runtime env) quantity;
          upd_mainImage := None; upd_otherImages := None |} in
     updateData ←
       match files req with
       | None => mret updateData
       | Some req_files =>
           if Nat.ltb 0 (length req_files) then
             promises ← call (map_calls (λ file, uploadToCloudinary env (buffer file)) req_files);
             uploadResults ← await (Promise_all promises);
             mainImage ← first_secure_url uploadResults;
             mret {| upd_name := upd_name updateData; upd_category := upd_category updateData;
                     upd_price := upd_price updateData;
                     upd_description := upd_description updateData;
                     upd_quantity := upd_quantity updateData;
                     upd_mainImage := Some mainImage;
                     upd_otherImages := Some (secure_url <$> drop 1 uploadResults) |}
           else mret updateData
       end;
     updatedProduct ← Product_findByIdAndUpdate env (params_id req) updateData;
     mret (res_json (from_option json_Product json_null updatedProduct)))
    (λ err, res_status_json 500 (json_error "Server error")).

Definition put_api_products_id (env : Env) : Incoming → World → World * Response :=
  route (upload_array 5) (update_product env).

(** POST /api/hero-images *)
Definition create_hero (env : Env) (req : Request) : World → World * Response :=
  try_catch
    (match file req with
     | None => mret (res_status_json 400 (json_error "No image uploaded"))
     | Some req_file =>
         promise ← call (uploadHeroToCloudinary env (buffer req_file));
         result ← await promise;
         let hero :=
           new_HeroImage env (secure_url result)
             (Js.strict_eq (get (body req) "isActive") (Js.Str "true")
              || Js.strict_eq (get (body req) "isActive") (Js.Bool true)) in
         saved ← HeroImage_save env true hero;
         mret (res_status_json 201 (json_HeroImage saved))
     end)
    (λ err, res_status_json 500 (json_error "Server error")).

Definition post_api_hero_images (env : Env) : Incoming → World → World * Response :=
  route upload_single (create_hero env).

(** GET /api/hero-images *)
Definition list_heroes (env : Env) (req : Request) : World → World * Response :=
  try_catch
    (heroes ← HeroImage_find_sort env;
     mret (res_json (json_HeroImages heroes)))
    (λ err, res_status_json 500 (json_error "Server error")).

Definition get_api_hero_images (env : Env) : Incoming → World → World * Response :=
  route no_middleware (list_heroes env).

(** [hero.isActive = !hero.isActive]. *)
Definition flip_isActive (hero : HeroImage) : HeroImage :=
  {| hero_id := hero_id hero; imageUrl := imageUrl hero;
     isActive := negb (isActive hero);
     hero_createdAt := hero_createdAt hero; hero_updatedAt := hero_updatedAt hero |}.

(** PATCH /api/hero-images/:id/toggle *)
Definition toggle_hero (env : Env) (req : Request) : World → World * Response :=
  try_catch
    (found ← HeroImage_findById env (params_id req);
     match found with
     | None => mret (res_status_json 404 (json_error "Hero image not found"))
     | Some hero =>
         let hero := flip_isActive hero in
         saved ← HeroImage_save env false hero;
         mret (res_json (json_HeroImage saved))
     end)
    (λ err, res_status_json 500 (json_error "Server error")).

Definition patch_api_hero_images_id_toggle (env : Env) : Incoming → World → World * Response :=
  route no_middleware (toggle_hero env).

(** DELETE /api/hero-images/:id *)
Definition delete_hero (env : Env) (req : Request) : World → World * Response :=
  try_catch
    (_ ← HeroImage_findByIdAndDelete env (params_id req);
     mret (res_json (json_message "Hero image deleted")))
    (λ err, res_status_json 500 (json_error "Server error")).

Definition delete_api_hero_images_id (env : Env) : Incoming → World → World * Response :=
  route no_middleware (delete_hero env).

(** ** Vocabulary of the statements *)

(** Every document is stored under its own identifier. *)
Definition World_ok (w : World) : Prop :=
  map_Forall (λ id p, _id p = id) (Products w)
  ∧ map_Forall (λ id h, hero_id h = id) (HeroImages w).

(** The uploads that the files [fs] make, as log entries. *)
Definition upload_calls (folder : string) (fs : list File) : list UploadCall :=
  (λ f, (folder, buffer f)) <$> fs.

(** What the upload of [f] settles with, issued when the log is [log]. *)
Definition settle (env : Env) (log : list UploadCall) (folder : string) (f : File)
    : Promise UploadResult :=
  match upload_stream env log folder (buffer f) with
  | (_, Some result) => Resolved result
  | (error, None) => Rejected (UploadError error)
  end.

(** The hosted URL returned for [f], if its upload succeeds. *)
Definition hosted_url (env : Env) (log : list UploadCall) (folder : string) (f : File)
    : option string :=
  match settle env log folder f with
  | Resolved result => Some (secure_url result)
  | Rejected _ => None
  end.

(** The promises made for the files [fs] in turn, from the log [log]. *)
Fixpoint settle_all (env : Env) (log : list UploadCall) (folder : string) (fs : list File)
    : list (Promise UploadResult) :=
  match fs with
  | [] => []
  | f :: fs' => settle env log folder f :: settle_all env (log ++ [(folder, buffer f)]) folder fs'
  end.

(** The upload of the [i]-th file of [fs], issued after those of the
    files before it. *)
Definition nth_upload (env : Env) (log : list UploadCall) (folder : string) (fs : list File)
    (i : nat) : option (Promise UploadResult) :=
  settle env (log ++ upload_calls folder (take i fs)) folder <$> fs !! i.

Definition nth_hosted_url (env : Env) (log : list UploadCall) (folder : string) (fs : list File)
    (i : nat) : option string :=
  fs !! i ≫= hosted_url env (log ++ upload_calls folder (take i fs)) folder.

Definition is_rejected {A : Type} (p : Promise A) : bool :=
  match p with
  | Resolved _ => false
  | Rejected _ => true
  end.

(** [updateData] when the request carries no file. *)
Definition updateData_of_body (env : Env) (b : gmap string Js.Value) : UpdateData :=
  {| upd_name := get b "name"; upd_category := get b "category";
     upd_price := Js.Number (runtime env) (get b "price");
     upd_description := get b "description";
     upd_quantity := Js.Number (runtime env) (get b "quantity");
     upd_mainImage := None; upd_otherImages := None |}.

(** The store fails every operation of the request. *)
Definition store_down (env : Env) : Prop := ∀ op, store_rejects env op = true.

(** The document that the create handler builds from the body and from
    the results of the uploads, before [save]. *)
Definition product_of_body (env : Env) (b : gmap string Js.Value) (mainImage : string)
    (uploadResults : list UploadResult) : Product :=
  new_Product env (get b "name") (get b "category")
    (Js.Number (runtime env) (get b "price"))
    (if Js.truthy (get b "quantity") then Js.Number (runtime env) (get b "quantity")
     else 0%float)
    (get b "description") mainImage (secure_url <$> drop 1 uploadResults).

(** [updateData] once the update handler has assigned the two image keys. *)
Definition updateData_with_images (env : Env) (b : gmap string Js.Value) (mainImage : string)
    (uploadResults : list UploadResult) : UpdateData :=
  {| upd_name := get b "name"; upd_category := get b "category";
     upd_price := Js.Number (runtime env) (get b "price");
     upd_description := get b "description";
     upd_quantity := Js.Number (runtime env) (get b "quantity");
     upd_mainImage := Some mainImage;
     upd_otherImages := Some (secure_url <$> drop 1 uploadResults) |}.

(** The world once the files [fs] have been sent to [folder]. *)
Definition after_uploads (folder : string) (fs : list File) (w : World) : World :=
  set_cloudinary (cloudinary w ++ upload_calls folder fs) w.

(** The statuses a route may answer with. *)
Definition status_in (codes : list nat) (res : Response) : Prop := status res ∈ codes.

(** What [findByIdAndUpdate] and the answer make of an [updateData],
    from a world [w1]. *)
Definition update_commit (env : Env) (id : string) (upd : UpdateData) (w1 : World)
    : World * Response :=
  match cast_update (runtime env) upd with
  | None => (w1, res_status_json 500 (json_error "Server error"))
  | Some upd =>
      if store_rejects env (Op_Product_findByIdAndUpdate id upd)
      then (w1, res_status_json 500 (json_error "Server error"))
      else
        match Products w1 !! id with
        | None => (w1, res_json json_null)
        | Some p =>
            (set_Products (<[id := apply_update (now env) upd p]> (Products w1)) w1,
             res_json (json_Product (apply_update (now env) upd p)))
        end
  end.

(** The document that the hero-create handler builds, before [save]. *)
Definition hero_of_body (env : Env) (b : gmap string Js.Value) (result : UploadResult)
    : HeroImage :=
  new_HeroImage env (secure_url result)
    (Js.strict_eq (get b "isActive") (Js.Str "true")
     || Js.strict_eq (get b "isActive") (Js.Bool true)).

(** An id that casts to an ObjectId: 24 hexadecimal digits, or a string
    of 12 bytes. *)
Definition hex_digit (c : Ascii.ascii) : bool :=
  let n := Ascii.N_of_ascii c in
  (N.leb 48 n && N.leb n 57) || (N.leb 97 n && N.leb n 102) || (N.leb 65 n && N.leb n 70).

Definition castable_ObjectId (id : string) : bool :=
  (Nat.eqb (String.length id) 24 && forallb hex_digit (String.list_ascii_of_string id))
  || Nat.eqb (String.length id) 12.

(** A store that works, and fails exactly the operations whose id does
    not cast. *)
Definition refuses_malformed_id (op : StoreOp) : bool :=
  match op with
  | Op_Product_findByIdAndDelete id
  | Op_Product_findByIdAndUpdate id _
  | Op_HeroImage_findById id
  | Op_HeroImage_findByIdAndDelete id => negb (castable_ObjectId id)
  | _ => false
  end.

(** How an update request comes to the store: without files, as the body
    gives it; with 1 to 5 files, once they are all uploaded, with the
    two image keys. *)
Definition update_reaches_store (env : Env) (r : Incoming) (w : World)
    (upd0 : UpdateData) (w1 : World) : Prop :=
  ((in_parts r = None ∨ in_parts r = Some [])
   ∧ w1 = w ∧ upd0 = updateData_of_body env (in_body r))
  ∨ ∃ fs results r0,
      in_parts r = Some fs ∧ (1 ≤ length fs ≤ 5)%nat
      ∧ settle_all env (cloudinary w) "maison_products" fs = Resolved <$> results
      ∧ results !! 0%nat = Some r0
      ∧ w1 = after_uploads "maison_products" fs w
      ∧ upd0 = updateData_with_images env (in_body r) (secure_url r0) results.

(** ** Sample data *)

Module Sample.

Definition rt : Js.Runtime :=
  {| Js.StringToNumber := λ s, if String.eqb s "120" then 120%float else nan;
     Js.ToPrimitive := λ _, "[object Object]";
     Js.NumberToString := λ f, if PrimFloat.eqb f 120%float then "120" else "0" |}.

Definition url_of (log : list UploadCall) : string :=
  ("https://res.cloudinary.com/maison/"
   ++ nth (length log) ["img0"; "img1"; "img2"; "img3"; "img4"] "img")%string.

(** Every upload succeeds and the store answers. *)
Definition env : Env :=
  {| runtime := rt; now := 2000; new_ObjectId := "65a000000000000000000009";
     upload_stream := λ log _ _, (None, Some {| secure_url := url_of log; public_id := "p" |});
     store_rejects := λ _, false |}.

(** The second upload of a request fails. *)
Definition env_upload_fails : Env :=
  {| runtime := rt; now := 2000; new_ObjectId := "65a000000000000000000009";
     upload_stream := λ log _ _,
       if Nat.eqb (length log) 1 then (Some "timeout", None)
       else (None, Some {| secure_url := url_of log; public_id := "p" |});
     store_rejects := λ _, false |}.

(** Every upload succeeds and the store answers, except that it cannot
    cast a malformed id. *)
Definition env_casting : Env :=
  {| runtime := rt; now := 2000; new_ObjectId := "65a000000000000000000009";
     upload_stream := λ log _ _, (None, Some {| secure_url := url_of log; public_id := "p" |});
     store_rejects := refuses_malformed_id |}.

Definition chair : Product :=
  {| _id := "65a000000000000000000001"; name := Js.Str "Chair"; category := Js.Str "Living";
     price := 80%float; mainImage := "https://res.cloudinary.com/maison/chair";
     otherImages := ["https://res.cloudinary.com/maison/chair-side"];
     description := Js.Undefined; quantity := 3%float;
     createdAt := 1000; updatedAt := 1000 |}.

Definition lamp : Product :=
  {| _id := "65a000000000000000000002"; name := Js.Str "Lamp"; category := Js.Str "Light";
     price := 25%float; mainImage := "https://res.cloudinary.com/maison/lamp";
     otherImages := []; description := Js.Str "Brass"; quantity := 0%float;
     createdAt := 1500; updatedAt := 1600 |}.

Definition banner : HeroImage :=
  {| hero_id := "65a000000000000000000003";
     imageUrl := "https://res.cloudinary.com/maison/banner";
     isActive := false; hero_createdAt := 1200; hero_updatedAt := 1200 |}.

Definition world : World :=
  {| Products := <[_id lamp := lamp]> {[ _id chair := chair ]};
     HeroImages := {[ hero_id banner := banner ]};
     cloudinary := [] |}.

Definition photo (n : string) : File := {| originalname := n; buffer := [] |}.

(** The text fields of a form that describes a sofa. *)
Definition sofa : list (string * Js.Value) :=
  [("name", Js.Str "Sofa"); ("category", Js.Str "Living"); ("price", Js.Str "120")].

Definition incoming (id : string) (fields : list (string * Js.Value)) (parts : option (list File))
    : Incoming :=
  {| in_params_id := id; in_body := list_to_map fields; in_parts := parts |}.

End Sample.

(** ** Properties *)

Ltac run :=
  unfold route, no_middleware, try_catch, mbind, Async_bind, mret, Async_ret,
    await, call, throw; simpl.

Lemma set_Products_id w : set_Products (Products w) w = w.
Proof. by destruct w. Qed.

Lemma set_HeroImages_id w : set_HeroImages (HeroImages w) w = w.
Proof. by destruct w. Qed.

Lemma sample_world_ok : World_ok Sample.world.
Proof.
  split; simpl.
  - apply map_Forall_insert_2; [done|]. by apply map_Forall_singleton.
  - by apply map_Forall_singleton.
Qed.

(** *** Uploads and [Promise.all] *)

Lemma map_calls_upload (env : Env) (folder : string) (fs : list File) (w : World) :
  map_calls (λ file, upload_to env folder (buffer file)) fs w
  = (set_cloudinary (cloudinary w ++ upload_calls folder fs) w,
     settle_all env (cloudinary w) folder fs).
Proof.
  revert w. induction fs as [|f fs IH]; intros w; simpl.
  - rewrite app_nil_r. by destruct w.
  - rewrite IH. simpl. unfold settle, upload_calls. simpl.
    by rewrite <- app_assoc.
Qed.

Lemma settle_all_lookup (env : Env) (log : list UploadCall) (folder : string)
    (fs : list File) (i : nat) :
  settle_all env log folder fs !! i = nth_upload env log folder fs i.
Proof.
  revert log i. induction fs as [|f fs IH]; intros log i; [by destruct i|].
  destruct i as [|i]; unfold nth_upload; simpl.
  - by rewrite app_nil_r.
  - rewrite IH. unfold nth_upload. by rewrite <- app_assoc.
Qed.

Lemma settle_all_length env log folder fs :
  length (settle_all env log folder fs) = length fs.
Proof. revert log. induction fs as [|f fs IH]; intros log; simpl; [done|]. by rewrite IH. Qed.

Lemma Promise_all_resolved {A : Type} (l : list A) :
  Promise_all (Resolved <$> l) = Resolved l.
Proof. induction l as [|a l IH]; [done|]. cbn. by rewrite IH. Qed.

Lemma Promise_all_rejected {A : Type} (ps : list (Promise A)) :
  Exists (λ p, is_rejected p = true) ps → ∃ e, Promise_all ps = Rejected e.
Proof.
  induction ps as [|p ps IH]; intros HE; [by inversion HE|].
  destruct p as [a|e]; simpl; [|by eexists].
  inversion HE as [? ? Hp|? ? Hps]; subst; [done|].
  destruct (IH Hps) as [e ->]. by eexists.
Qed.

(** When each upload succeeds, the promises are resolved ones, and the
    URL of the [i]-th result is the hosted URL of the [i]-th file. *)
Lemma settle_all_resolved (env : Env) (log : list UploadCall) (folder : string)
    (fs : list File) :
  (∀ i, (i < length fs)%nat → is_Some (nth_hosted_url env log folder fs i)) →
  ∃ results,
    settle_all env log folder fs = Resolved <$> results
    ∧ ∀ i, secure_url <$> results !! i = nth_hosted_url env log folder fs i.
Proof.
  revert log. induction fs as [|f fs IH]; intros log Hall.
  - exists []. split; [done|]. by intros [|i].
  - destruct (IH (log ++ [(folder, buffer f)])) as (results & Hres & Hurl).
    { intros i Hi. specialize (Hall (S i)). unfold nth_hosted_url in *. simpl in *.
      rewrite <- app_assoc. apply Hall. lia. }
    pose proof (Hall 0%nat) as H0. unfold nth_hosted_url in H0. simpl in H0.
    rewrite app_nil_r in H0. unfold hosted_url in H0.
    destruct (settle env log folder f) as [result|e] eqn:Hs;
      [|destruct H0 as [? H0]; [simpl; lia|done]].
    exists (result :: results). split.
    + simpl. by rewrite Hs, Hres.
    + intros [|i]; unfold nth_hosted_url; simpl.
      * rewrite app_nil_r. unfold hosted_url. by rewrite Hs.
      * rewrite Hurl. unfold nth_hosted_url. by rewrite <- app_assoc.
Qed.

Lemma Promise_all_resolved_inv {A : Type} (ps : list (Promise A)) (l : list A) :
  Promise_all ps = Resolved l → ps = Resolved <$> l.
Proof.
  revert l. induction ps as [|p ps IH]; intros l H; simpl in H.
  - by injection H as <-.
  - destruct p as [a|e]; [|done].
    destruct (Promise_all ps) as [l'|e] eqn:Hps; [|done].
    injection H as <-. cbn. by rewrite (IH l' eq_refl).
Qed.

(** When the promises are resolved ones, the URL of the [i]-th result is
    the hosted URL of the [i]-th file. *)
Lemma settle_all_urls (env : Env) (log : list UploadCall) (folder : string)
    (fs : list File) (results : list UploadResult) :
  settle_all env log folder fs = Resolved <$> results →
  length results = length fs
  ∧ ∀ i, secure_url <$> results !! i = nth_hosted_url env log folder fs i.
Proof.
  revert log results. induction fs as [|f fs IH]; intros log results H.
  - destruct results; [|done]. split; [done|]. by intros [|i].
  - destruct results as [|r0 results]; [done|]. cbn in H.
    injection H as H0 Hrest. destruct (IH _ _ Hrest) as [Hlen Hurl]. split.
    + simpl. by rewrite Hlen.
    + intros [|i]; unfold nth_hosted_url; simpl.
      * rewrite app_nil_r. unfold hosted_url. by rewrite H0.
      * rewrite Hurl. unfold nth_hosted_url. by rewrite <- app_assoc.
Qed.

(** *** Validation *)

Lemma validate_Product_Some (rt : Js.Runtime) (doc doc' : Product) :
  validate_Product rt doc = Some doc' →
  _id doc' = _id doc
  ∧ mainImage doc' = mainImage doc
  ∧ otherImages doc' = otherImages doc
  ∧ price doc' = price doc
  ∧ quantity doc' = quantity doc
  ∧ createdAt doc' = createdAt doc
  ∧ updatedAt doc' = updatedAt doc
  ∧ cast_String rt (name doc) = Some (name doc')
  ∧ cast_String rt (category doc) = Some (category doc')
  ∧ cast_String rt (description doc) = Some (description doc')
  ∧ required_String (name doc') = true
  ∧ required_String (category doc') = true
  ∧ mainImage doc ≠ ""
  ∧ PrimFloat.is_nan (price doc) = false
  ∧ PrimFloat.is_nan (quantity doc) = false.
Proof.
  unfold validate_Product, cast_Number. intros H.
  destruct (cast_String rt (name doc)) as [n|]; [|done].
  destruct (cast_String rt (category doc)) as [c|]; [|done].
  destruct (PrimFloat.is_nan (price doc)); [done|].
  destruct (cast_String rt (description doc)) as [d|]; [|done].
  destruct (PrimFloat.is_nan (quantity doc)); [done|]. simpl in H.
  destruct (required_String n) eqn:Hn; [|done].
  destruct (required_String c) eqn:Hc; [|done].
  destruct (String.eqb (mainImage doc) "") eqn:Hm; [done|]. simpl in H.
  injection H as <-. simpl. split_and!; try done.
  intros E. by rewrite E in Hm.
Qed.

Lemma cast_update_Some (rt : Js.Runtime) (upd upd' : UpdateData) :
  cast_update rt upd = Some upd' →
  upd_mainImage upd' = upd_mainImage upd
  ∧ upd_otherImages upd' = upd_otherImages upd
  ∧ upd_price upd' = upd_price upd
  ∧ upd_quantity upd' = upd_quantity upd
  ∧ cast_String rt (upd_name upd) = Some (upd_name upd')
  ∧ cast_String rt (upd_category upd) = Some (upd_category upd')
  ∧ cast_String rt (upd_description upd) = Some (upd_description upd')
  ∧ PrimFloat.is_nan (upd_price upd) = false
  ∧ PrimFloat.is_nan (upd_quantity upd) = false.
Proof.
  unfold cast_update, cast_Number. intros H.
  destruct (cast_String rt (upd_name upd)) as [n|]; [|done].
  destruct (cast_String rt (upd_category upd)) as [c|]; [|done].
  destruct (PrimFloat.is_nan (upd_price upd)); [done|].
  destruct (cast_String rt (upd_description upd)) as [d|]; [|done].
  destruct (PrimFloat.is_nan (upd_quantity upd)); [done|]. simpl in H.
  by injection H as <-.
Qed.

Lemma cast_String_text (rt : Js.Runtime) (v v' : Js.Value) (s : string) :
  cast_String rt v = Some v' → v = Js.Str s → v' = Js.Str s.
Proof. intros H ->. simpl in H. congruence. Qed.

Lemma cast_String_undefined (rt : Js.Runtime) (v v' : Js.Value) :
  cast_String rt v = Some v' → v ≠ Js.Undefined → v' ≠ Js.Undefined.
Proof. destruct v; simpl; intros H Hne; try done; by injection H as <-. Qed.

(** *** POST /api/products, step by step *)

(** The create route on 1 to 5 files: the uploads are issued first, all
    of them; then the answer depends on [Promise.all], on the
    validation of the document, on the store and on the freshness of the
    id. *)
Lemma create_product_run (env : Env) (r : Incoming) (w : World) (fs : list File) :
  in_parts r = Some fs →
  (1 ≤ length fs ≤ 5)%nat →
  post_api_products env r w
  = match Promise_all (settle_all env (cloudinary w) "maison_products" fs) with
    | Rejected _ =>
        (after_uploads "maison_products" fs w, res_status_json 500 (json_error "Server error"))
    | Resolved uploadResults =>
        match uploadResults !! 0%nat with
        | None =>
            (after_uploads "maison_products" fs w,
             res_status_json 500 (json_error "Server error"))
        | Some r0 =>
            match validate_Product (runtime env)
                    (product_of_body env (in_body r) (secure_url r0) uploadResults) with
            | None =>
                (after_uploads "maison_products" fs w,
                 res_status_json 500 (json_error "Server error"))
            | Some doc =>
                if store_rejects env (Op_Product_save doc)
                then (after_uploads "maison_products" fs w,
                      res_status_json 500 (json_error "Server error"))
                else
                  match Products w !! new_ObjectId env with
                  | Some _ =>
                      (after_uploads "maison_products" fs w,
                       res_status_json 500 (json_error "Server error"))
                  | None =>
                      (set_Products
                         (<[new_ObjectId env := stamp_new (now env) doc]> (Products w))
                         (after_uploads "maison_products" fs w),
                       res_status_json 201 (json_Product (stamp_new (now env) doc)))
                  end
            end
        end
    end.
Proof.
  intros Hparts [Hlo Hhi].
  unfold post_api_products, route, upload_array. rewrite Hparts.
  rewrite decide_True by done. unfold create_product. run.
  destruct fs as [|f fs]; [simpl in Hlo; lia|]. cbn [length Nat.eqb].
  unfold uploadToCloudinary. rewrite map_calls_upload.
  fold (after_uploads "maison_products" (f :: fs) w).
  destruct (Promise_all _) as [results|e]; [|done].
  unfold first_secure_url. destruct (results !! 0%nat) as [r0|]; [|done]. run.
  unfold Product_save. fold (product_of_body env (in_body r) (secure_url r0) results).
  destruct (validate_Product _ _) as [doc|] eqn:Hv; [|done].
  destruct (validate_Product_Some _ _ _ Hv) as (Hid & _). simpl in Hid.
  destruct (store_rejects env _); [done|]. simpl. rewrite Hid.
  by destruct (Products w !! new_ObjectId env).
Qed.

Lemma create_product_no_files_400_run (env : Env) (r : Incoming) (w : World) :
  in_parts r = None ∨ in_parts r = Some [] →
  post_api_products env r w
  = (w, res_status_json 400 (json_error "No images uploaded")).
Proof.
  intros [H|H]; unfold post_api_products, route, upload_array; rewrite H; simpl;
    unfold create_product; run; done.
Qed.

(** The create route either stops before any effect, with 400 or 500,
    or runs on 1 to 5 files. *)
Lemma create_product_cases (env : Env) (r : Incoming) (w : World) :
  (∃ code body,
     (code = 400%nat ∨ code = 500%nat)
     ∧ post_api_products env r w = (w, res_status_json code body))
  ∨ (∃ fs, in_parts r = Some fs ∧ (1 ≤ length fs ≤ 5)%nat).
Proof.
  destruct (in_parts r) as [fs|] eqn:Hparts.
  - destruct (decide (length fs ≤ 5)%nat) as [Hle|Hgt].
    + destruct fs as [|f fs].
      * left. exists 400%nat, (json_error "No images uploaded"). split; [by left|].
        apply create_product_no_files_400_run. by right.
      * right. exists (f :: fs). split; [done|]. simpl in *. lia.
    + left. exists 500%nat, express_error_page. split; [by right|].
      unfold post_api_products, route, upload_array. rewrite Hparts.
      by rewrite decide_False by done.
  - left. exists 400%nat, (json_error "No images uploaded"). split; [by left|].
    apply create_product_no_files_400_run. by left.
Qed.

(** On 1 to 5 files the create route ends in 500 after its uploads, or
    in 201 after them, with an upload result for each file, a document
    that passed validation, a save that the store accepted and an id
    that was free. *)
Lemma create_product_outcome (env : Env) (r : Incoming) (w : World) (fs : list File) :
  in_parts r = Some fs →
  (1 ≤ length fs ≤ 5)%nat →
  post_api_products env r w
  = (after_uploads "maison_products" fs w, res_status_json 500 (json_error "Server error"))
  ∨ ∃ results r0 doc,
      settle_all env (cloudinary w) "maison_products" fs = Resolved <$> results
      ∧ results !! 0%nat = Some r0
      ∧ validate_Product (runtime env)
          (product_of_body env (in_body r) (secure_url r0) results) = Some doc
      ∧ store_rejects env (Op_Product_save doc) = false
      ∧ Products w !! new_ObjectId env = None
      ∧ post_api_products env r w
        = (set_Products (<[new_ObjectId env := stamp_new (now env) doc]> (Products w))
             (after_uploads "maison_products" fs w),
           res_status_json 201 (json_Product (stamp_new (now env) doc))).
Proof.
  intros Hparts Hlen. rewrite (create_product_run env r w fs Hparts Hlen).
  destruct (Promise_all _) as [results|e] eqn:Hall; [|by left].
  apply Promise_all_resolved_inv in Hall.
  destruct (results !! 0%nat) as [r0|] eqn:H0; [|by left].
  destruct (validate_Product _ _) as [doc|] eqn:Hv; [|by left].
  destruct (store_rejects env _) eqn:Hok; [by left|].
  destruct (Products w !! new_ObjectId env) eqn:Hfresh; [by left|].
  right. by exists results, r0, doc.
Qed.

(** *** PUT /api/products/:id, step by step *)

Lemma update_commit_run (env : Env) (id : string) (upd : UpdateData) (w1 : World) :
  try_catch
    (updatedProduct ← Product_findByIdAndUpdate env id upd;
     mret (res_json (from_option json_Product json_null updatedProduct)))
    (λ err, res_status_json 500 (json_error "Server error")) w1
  = update_commit env id upd w1.
Proof.
  unfold update_commit, Product_findByIdAndUpdate. run.
  destruct (cast_update _ upd) as [upd'|]; [|done].
  destruct (store_rejects env _); [done|]. by destruct (Products w1 !! id).
Qed.

Lemma update_without_files_run (env : Env) (r : Incoming) (w : World) :
  in_parts r = None ∨ in_parts r = Some [] →
  put_api_products_id env r w
  = update_commit env (in_params_id r) (updateData_of_body env (in_body r)) w.
Proof.
  intros Hnone. rewrite <- update_commit_run.
  destruct Hnone as [H|H]; unfold put_api_products_id, route, upload_array; rewrite H; simpl;
    unfold update_product; run; done.
Qed.

(** The update route on 1 to 5 files. *)
Lemma update_product_run (env : Env) (r : Incoming) (w : World) (fs : list File) :
  in_parts r = Some fs →
  (1 ≤ length fs ≤ 5)%nat →
  put_api_products_id env r w
  = match Promise_all (settle_all env (cloudinary w) "maison_products" fs) with
    | Rejected _ =>
        (after_uploads "maison_products" fs w, res_status_json 500 (json_error "Server error"))
    | Resolved uploadResults =>
        match uploadResults !! 0%nat with
        | None =>
            (after_uploads "maison_products" fs w,
             res_status_json 500 (json_error "Server error"))
        | Some r0 =>
            update_commit env (in_params_id r)
              (updateData_with_images env (in_body r) (secure_url r0) uploadResults)
              (after_uploads "maison_products" fs w)
        end
    end.
Proof.
  intros Hparts [Hlo Hhi].
  unfold put_api_products_id, route, upload_array. rewrite Hparts.
  rewrite decide_True by done. unfold update_product. run.
  destruct fs as [|f fs]; [simpl in Hlo; lia|]. cbn [length Nat.ltb Nat.leb].
  unfold uploadToCloudinary. rewrite map_calls_upload.
  fold (after_uploads "maison_products" (f :: fs) w).
  destruct (Promise_all _) as [results|e]; [|done].
  unfold first_secure_url. destruct (results !! 0%nat) as [r0|]; [|done]. run.
  unfold update_commit, Product_findByIdAndUpdate.
  fold (updateData_with_images env (in_body r) (secure_url r0) results).
  destruct (cast_update _ _) as [upd'|]; [|done].
  destruct (store_rejects env _); [done|].
  by destruct (Products (after_uploads "maison_products" (f :: fs) w) !! in_params_id r).
Qed.

(** The update route either stops at multer, or fails after its
    uploads, or commits some [updateData] after its uploads. *)
Lemma update_product_cases (env : Env) (r : Incoming) (w : World) :
  put_api_products_id env r w = (w, res_status_json 500 express_error_page)
  ∨ ∃ w1 : World,
      Products w1 = Products w ∧ HeroImages w1 = HeroImages w
      ∧ (∃ k, cloudinary w1 = cloudinary w ++ k)
      ∧ (put_api_products_id env r w = (w1, res_status_json 500 (json_error "Server error"))
         ∨ ∃ upd0, update_reaches_store env r w upd0 w1
                   ∧ put_api_products_id env r w
                     = update_commit env (in_params_id r) upd0 w1).
Proof.
  destruct (in_parts r) as [fs|] eqn:Hparts.
  - destruct (decide (length fs ≤ 5)%nat) as [Hle|Hgt].
    + destruct fs as [|f fs].
      * right. exists w. split; [done|]. split; [done|].
        split; [exists []; by rewrite app_nil_r|]. right. eexists. split.
        -- left. split; [by right|done].
        -- apply update_without_files_run. by right.
      * right. exists (after_uploads "maison_products" (f :: fs) w).
        split; [done|]. split; [done|]. split; [by eexists|].
        assert (1 ≤ length (f :: fs) ≤ 5)%nat as Hlen by (simpl in *; lia).
        rewrite (update_product_run env r w (f :: fs) Hparts Hlen).
        destruct (Promise_all _) as [results|e] eqn:Hall; [|by left].
        apply Promise_all_resolved_inv in Hall.
        destruct (results !! 0%nat) as [r0|] eqn:H0; [|by left]. right.
        eexists. split; [|done]. right. by exists (f :: fs), results, r0.
    + left. unfold put_api_products_id, route, upload_array. rewrite Hparts.
      by rewrite decide_False by done.
  - right. exists w. split; [done|]. split; [done|].
    split; [exists []; by rewrite app_nil_r|]. right. eexists. split.
    + left. split; [by left|done].
    + apply update_without_files_run. by left.
Qed.

(** What a commit does, case by case. *)
Lemma update_commit_cases (env : Env) (id : string) (upd0 : UpdateData) (w1 : World) :
  update_commit env id upd0 w1 = (w1, res_status_json 500 (json_error "Server error"))
  ∨ ∃ upd, cast_update (runtime env) upd0 = Some upd
           ∧ store_rejects env (Op_Product_findByIdAndUpdate id upd) = false
           ∧ ((Products w1 !! id = None
               ∧ update_commit env id upd0 w1 = (w1, res_json json_null))
              ∨ ∃ p, Products w1 !! id = Some p
                     ∧ update_commit env id upd0 w1
                       = (set_Products (<[id := apply_update (now env) upd p]> (Products w1)) w1,
                          res_json (json_Product (apply_update (now env) upd p)))).
Proof.
  unfold update_commit.
  destruct (cast_update _ upd0) as [upd|]; [|by left].
  destruct (store_rejects env _) eqn:Hok; [by left|]. right. exists upd.
  split; [done|]. split; [done|].
  destruct (Products w1 !! id) as [p|]; [right; by exists p|by left].
Qed.

(** *** POST /api/hero-images, step by step *)

Lemma create_hero_run (env : Env) (r : Incoming) (w : World) (f : File) :
  in_parts r = Some [f] →
  post_api_hero_images env r w
  = match settle env (cloudinary w) "maison_hero" f with
    | Rejected _ =>
        (after_uploads "maison_hero" [f] w, res_status_json 500 (json_error "Server error"))
    | Resolved result =>
        let hero := hero_of_body env (in_body r) result in
        if negb (validate_HeroImage hero)
        then (after_uploads "maison_hero" [f] w,
              res_status_json 500 (json_error "Server error"))
        else if store_rejects env (Op_HeroImage_save hero)
        then (after_uploads "maison_hero" [f] w,
              res_status_json 500 (json_error "Server error"))
        else
          match HeroImages w !! new_ObjectId env with
          | Some _ =>
              (after_uploads "maison_hero" [f] w,
               res_status_json 500 (json_error "Server error"))
          | None =>
              (set_HeroImages
                 (<[new_ObjectId env := hero_stamp_new (now env) hero]> (HeroImages w))
                 (after_uploads "maison_hero" [f] w),
               res_status_json 201 (json_HeroImage (hero_stamp_new (now env) hero)))
          end
    end.
Proof.
  intros Hparts. unfold post_api_hero_images, route, upload_single. rewrite Hparts.
  unfold create_hero. run. unfold uploadHeroToCloudinary, upload_to, settle.
  fold (after_uploads "maison_hero" [f] w).
  destruct (upload_stream env (cloudinary w) "maison_hero" (buffer f)) as [error [result|]];
    [|done].
  simpl. unfold HeroImage_save. fold (hero_of_body env (in_body r) result).
  destruct (validate_HeroImage _); [|done]. simpl.
  destruct (store_rejects env _); [done|]. simpl.
  by destruct (HeroImages w !! new_ObjectId env).
Qed.

(** The hero-create route either stops before any effect, with 400 or
    500, or runs on exactly one file. *)
Lemma create_hero_cases (env : Env) (r : Incoming) (w : World) :
  (∃ code body,
     (code = 400%nat ∨ code = 500%nat)
     ∧ post_api_hero_images env r w = (w, res_status_json code body))
  ∨ (∃ f, in_parts r = Some [f]).
Proof.
  destruct (in_parts r) as [[|f [|g fs]]|] eqn:Hparts.
  - left. exists 400%nat, (json_error "No image uploaded"). split; [by left|].
    unfold post_api_hero_images, route, upload_single. by rewrite Hparts.
  - right. by exists f.
  - left. exists 500%nat, express_error_page. split; [by right|].
    unfold post_api_hero_images, route, upload_single. by rewrite Hparts.
  - left. exists 400%nat, (json_error "No image uploaded"). split; [by left|].
    unfold post_api_hero_images, route, upload_single. by rewrite Hparts.
Qed.

(** On one file the hero-create route ends in 500 after its upload, or
    in 201 after it, with the result of the upload, a document that
    passed validation, a save that the store accepted and an id that was
    free. *)
Lemma create_hero_outcome (env : Env) (r : Incoming) (w : World) (f : File) :
  in_parts r = Some [f] →
  post_api_hero_images env r w
  = (after_uploads "maison_hero" [f] w, res_status_json 500 (json_error "Server error"))
  ∨ ∃ result,
      settle env (cloudinary w) "maison_hero" f = Resolved result
      ∧ secure_url result ≠ ""
      ∧ store_rejects env (Op_HeroImage_save (hero_of_body env (in_body r) result)) = false
      ∧ HeroImages w !! new_ObjectId env = None
      ∧ post_api_hero_images env r w
        = (set_HeroImages
             (<[new_ObjectId env
                := hero_stamp_new (now env) (hero_of_body env (in_body r) result)]>
                (HeroImages w))
             (after_uploads "maison_hero" [f] w),
           res_status_json 201
             (json_HeroImage (hero_stamp_new (now env) (hero_of_body env (in_body r) result)))).
Proof.
  intros Hparts. rewrite (create_hero_run env r w f Hparts).
  destruct (settle env _ _ f) as [result|e]; [|by left]. simpl.
  unfold validate_HeroImage. simpl.
  destruct (String.eqb (secure_url result) "") eqn:Hurl; [by left|]. simpl.
  destruct (store_rejects env _) eqn:Hok; [by left|].
  destruct (HeroImages w !! new_ObjectId env) eqn:Hfresh; [by left|].
  right. exists result. split; [done|]. split; [|done].
  intros E. by rewrite E in Hurl.
Qed.

(** *** The other routes, step by step *)

(** The toggle route ends in one of three ways. *)
Lemma toggle_hero_cases (env : Env) (r : Incoming) (w : World) :
  patch_api_hero_images_id_toggle env r w
  = (w, res_status_json 500 (json_error "Server error"))
  ∨ (HeroImages w !! in_params_id r = None
     ∧ patch_api_hero_images_id_toggle env r w
       = (w, res_status_json 404 (json_error "Hero image not found")))
  ∨ ∃ h, HeroImages w !! in_params_id r = Some h
         ∧ is_Some (HeroImages w !! hero_id h)
         ∧ patch_api_hero_images_id_toggle env r w
           = (set_HeroImages
                (<[hero_id h := hero_stamp_modified (now env) (flip_isActive h)]>
                   (HeroImages w)) w,
              res_json (json_HeroImage (hero_stamp_modified (now env) (flip_isActive h)))).
Proof.
  unfold patch_api_hero_images_id_toggle, toggle_hero. run. unfold HeroImage_findById.
  destruct (store_rejects env _); [by left|].
  destruct (HeroImages w !! in_params_id r) as [h|] eqn:Hh; [|by right; left]. simpl.
  unfold HeroImage_save. destruct (validate_HeroImage _); [|by left]. simpl.
  destruct (store_rejects env _); [by left|]. simpl.
  destruct (HeroImages w !! hero_id h) as [h0|] eqn:Hh0; [|by left].
  right; right. exists h. by rewrite Hh0.
Qed.

(** The toggle of a stored HeroImage whose imageUrl is not empty, both
    store calls being answered: the record is written back with isActive
    flipped and updatedAt refreshed, and the answer is that record. *)
Lemma toggle_hero_found (env : Env) (r : Incoming) (w : World) (h : HeroImage) :
  World_ok w →
  HeroImages w !! in_params_id r = Some h →
  imageUrl h ≠ "" →
  store_rejects env (Op_HeroImage_findById (in_params_id r)) = false →
  store_rejects env (Op_HeroImage_save (flip_isActive h)) = false →
  patch_api_hero_images_id_toggle env r w
  = (set_HeroImages
       (<[in_params_id r := hero_stamp_modified (now env) (flip_isActive h)]> (HeroImages w)) w,
     {| status := 200;
        json := json_HeroImage (hero_stamp_modified (now env) (flip_isActive h)) |}).
Proof.
  intros [_ Hids] Hh Hurl Hfind Hsave.
  pose proof (map_Forall_lookup_1 _ _ _ _ Hids Hh) as Hid. simpl in Hid.
  unfold patch_api_hero_images_id_toggle, toggle_hero. run.
  unfold HeroImage_findById. simpl. rewrite Hfind, Hh. simpl.
  unfold HeroImage_save, validate_HeroImage. simpl.
  apply String.eqb_neq in Hurl. rewrite Hurl. simpl. rewrite Hsave, Hid, Hh. done.
Qed.

(** A toggle answered 200 found the record under the id and wrote it
    back. *)
Lemma toggle_hero_200 (env : Env) (r : Incoming) (w : World) (h : HeroImage) :
  World_ok w →
  HeroImages w !! in_params_id r = Some h →
  status (patch_api_hero_images_id_toggle env r w).2 = 200%nat →
  patch_api_hero_images_id_toggle env r w
  = (set_HeroImages
       (<[in_params_id r := hero_stamp_modified (now env) (flip_isActive h)]> (HeroImages w)) w,
     {| status := 200;
        json := json_HeroImage (hero_stamp_modified (now env) (flip_isActive h)) |}).
Proof.
  intros [_ Hids] Hh H200.
  pose proof (map_Forall_lookup_1 _ _ _ _ Hids Hh) as Hid. simpl in Hid.
  destruct (toggle_hero_cases env r w) as [E|[[_ E]|(h' & Hh' & _ & E)]];
    rewrite E in H200 |- *; [done..|].
  assert (h' = h) as -> by congruence. by rewrite Hid.
Qed.

Lemma set_HeroImages_ok (w : World) (id : ObjectId) (h : HeroImage) :
  World_ok w → hero_id h = id → World_ok (set_HeroImages (<[id := h]> (HeroImages w)) w).
Proof.
  intros [HP HH] Hid. split; simpl; [done|]. by apply map_Forall_insert_2.
Qed.

Lemma list_products_run (env : Env) (r : Incoming) (w : World) :
  store_rejects env Op_Product_find = false →
  get_api_products env r w
  = (w, res_json (json_Products (merge_sort newest_first (snd <$> map_to_list (Products w))))).
Proof.
  intros Hok. unfold get_api_products, list_products. run. unfold Product_find_sort.
  by rewrite Hok.
Qed.

Lemma list_products_cases (env : Env) (r : Incoming) (w : World) :
  get_api_products env r w = (w, res_status_json 500 (json_error "Server error"))
  ∨ ∃ ps, get_api_products env r w = (w, res_json (json_Products ps)).
Proof.
  unfold get_api_products, list_products. run. unfold Product_find_sort.
  destruct (store_rejects env _); [by left|]. right. by eexists.
Qed.

Lemma list_heroes_cases (env : Env) (r : Incoming) (w : World) :
  get_api_hero_images env r w = (w, res_status_json 500 (json_error "Server error"))
  ∨ ∃ hs, get_api_hero_images env r w = (w, res_json (json_HeroImages hs)).
Proof.
  unfold get_api_hero_images, list_heroes. run. unfold HeroImage_find_sort.
  destruct (store_rejects env _); [by left|]. right. by eexists.
Qed.

Lemma delete_product_cases (env : Env) (r : Incoming) (w : World) :
  delete_api_products_id env r w = (w, res_status_json 500 (json_error "Server error"))
  ∨ delete_api_products_id env r w
    = (set_Products (delete (in_params_id r) (Products w)) w,
       res_json (json_message "Product deleted")).
Proof.
  unfold delete_api_products_id, delete_product. run. unfold Product_findByIdAndDelete.
  destruct (store_rejects env _); [by left|by right].
Qed.

Lemma delete_hero_cases (env : Env) (r : Incoming) (w : World) :
  delete_api_hero_images_id env r w = (w, res_status_json 500 (json_error "Server error"))
  ∨ delete_api_hero_images_id env r w
    = (set_HeroImages (delete (in_params_id r) (HeroImages w)) w,
       res_json (json_message "Hero image deleted")).
Proof.
  unfold delete_api_hero_images_id, delete_hero. run. unfold HeroImage_findByIdAndDelete.
  destruct (store_rejects env _); [by left|by right].
Qed.

Ltac in_codes := unfold status_in; simpl; rewrite ?elem_of_cons; auto 8.

(** ** The claims *)

(** *** C2 *)

(** C2. A product-create request with zero image files (a body that is
    not multipart, or a multipart body without file parts) is answered
    400 with the world untouched: no Product is persisted and the log of
    uploads is the same, so no upload was attempted. *)
Theorem create_product_no_files_400 (env : Env) (r : Incoming) (w : World) :
  in_parts r = None ∨ in_parts r = Some [] →
  post_api_products env r w
  = (w, res_status_json 400 (json_error "No images uploaded")).
Proof.
  intros [H|H]; unfold post_api_products, route, upload_array; rewrite H; simpl;
    unfold create_product; run; done.
Qed.

Lemma create_product_no_files_400_witness :
  post_api_products Sample.env
    (Sample.incoming "" [("name", Js.Str "Sofa"); ("price", Js.Str "120")] (Some []))
    Sample.world
  = (Sample.world, res_status_json 400 (json_error "No images uploaded")).
Proof. apply create_product_no_files_400. right. reflexivity. Defined.

(** *** C3 *)

(** C3. When the upload of at least one submitted file fails, the
    product-create route and the product-update route both answer 500
    and leave both collections as they were: no Product is created and
    none is modified. *)
Theorem upload_failure_500_store_unchanged (env : Env) (r : Incoming) (w : World)
    (fs : list File) :
  in_parts r = Some fs →
  (∃ i p, nth_upload env (cloudinary w) "maison_products" fs i = Some p
          ∧ is_rejected p = true) →
  (status (post_api_products env r w).2 = 500%nat
   ∧ Products (post_api_products env r w).1 = Products w
   ∧ HeroImages (post_api_products env r w).1 = HeroImages w)
  ∧ (status (put_api_products_id env r w).2 = 500%nat
     ∧ Products (put_api_products_id env r w).1 = Products w
     ∧ HeroImages (put_api_products_id env r w).1 = HeroImages w).
Proof.
  intros Hparts (i & p & Hi & Hrej).
  rewrite <- settle_all_lookup in Hi.
  assert (∃ e, Promise_all (settle_all env (cloudinary w) "maison_products" fs) = Rejected e)
    as [e He].
  { apply Promise_all_rejected, Exists_exists. exists p. split; [|done].
    apply list_elem_of_lookup. eauto. }
  assert (fs ≠ []) as Hne by (intros ->; done).
  unfold post_api_products, put_api_products_id, route, upload_array. rewrite Hparts.
  case_decide; [|done].
  unfold create_product, update_product. run.
  destruct fs as [|f fs]; [done|]. cbn [length Nat.eqb Nat.ltb Nat.leb].
  unfold uploadToCloudinary. rewrite map_calls_upload, He. done.
Qed.

Lemma upload_failure_500_store_unchanged_witness :
  (status (post_api_products Sample.env_upload_fails
             (Sample.incoming "" [("name", Js.Str "Sofa")]
                (Some [Sample.photo "front"; Sample.photo "side"]))
             Sample.world).2 = 500%nat
   ∧ Products (post_api_products Sample.env_upload_fails
                 (Sample.incoming "" [("name", Js.Str "Sofa")]
                    (Some [Sample.photo "front"; Sample.photo "side"]))
                 Sample.world).1 = Products Sample.world)
  ∧ (status (put_api_products_id Sample.env_upload_fails
               (Sample.incoming "" [("name", Js.Str "Sofa")]
                  (Some [Sample.photo "front"; Sample.photo "side"]))
               Sample.world).2 = 500%nat
     ∧ Products (put_api_products_id Sample.env_upload_fails
                   (Sample.incoming "" [("name", Js.Str "Sofa")]
                      (Some [Sample.photo "front"; Sample.photo "side"]))
                   Sample.world).1 = Products Sample.world).
Proof.
  destruct (upload_failure_500_store_unchanged Sample.env_upload_fails
              (Sample.incoming "" [("name", Js.Str "Sofa")]
                 (Some [Sample.photo "front"; Sample.photo "side"]))
              Sample.world [Sample.photo "front"; Sample.photo "side"])
    as [(H1 & H2 & _) (H3 & H4 & _)].
  - reflexivity.
  - exists 1%nat, (Rejected (UploadError (Some "timeout"))). split; reflexivity.
  - repeat split; assumption.
Defined.

(** *** C8 *)

#[local] Instance newest_first_total : Total newest_first.
Proof. intros p q. unfold newest_first. lia. Qed.
#[local] Instance newest_first_trans : Transitive newest_first.
Proof. intros p q s. unfold newest_first. lia. Qed.
#[local] Instance hero_newest_first_total : Total hero_newest_first.
Proof. intros p q. unfold hero_newest_first. lia. Qed.
#[local] Instance hero_newest_first_trans : Transitive hero_newest_first.
Proof. intros p q s. unfold hero_newest_first. lia. Qed.

Lemma elem_of_stored {A : Type} (m : gmap ObjectId A) (l : list A) (x : A) :
  l ≡ₚ (snd <$> map_to_list m) → x ∈ l ↔ ∃ id, m !! id = Some x.
Proof.
  intros ->. rewrite list_elem_of_fmap. split.
  - intros ([id y] & -> & Hin). exists id. by apply elem_of_map_to_list.
  - intros [id Hid]. exists (id, x). split; [done|]. by apply elem_of_map_to_list.
Qed.

(** C8. In every state of the store, the listing being answered by the
    store, GET /api/products returns the stored Products and GET
    /api/hero-images the stored HeroImages: each answer holds exactly the
    stored documents (as many as the collection has, none filtered out),
    with createdAt descending, every document being at least as recent
    as all those after it; the world is unchanged. *)
Theorem list_all_newest_first (env : Env) (r : Incoming) (w : World) :
  (store_rejects env Op_Product_find = false →
   ∃ ps : list Product,
     get_api_products env r w = (w, {| status := 200; json := json_Products ps |})
     ∧ ps ≡ₚ (snd <$> map_to_list (Products w))
     ∧ (∀ p, p ∈ ps ↔ ∃ id, Products w !! id = Some p)
     ∧ length ps = size (Products w)
     ∧ StronglySorted (λ p q, createdAt q ≤ createdAt p) ps)
  ∧ (store_rejects env Op_HeroImage_find = false →
     ∃ hs : list HeroImage,
       get_api_hero_images env r w = (w, {| status := 200; json := json_HeroImages hs |})
       ∧ hs ≡ₚ (snd <$> map_to_list (HeroImages w))
       ∧ (∀ h, h ∈ hs ↔ ∃ id, HeroImages w !! id = Some h)
       ∧ length hs = size (HeroImages w)
       ∧ StronglySorted (λ p q, hero_createdAt q ≤ hero_createdAt p) hs).
Proof.
  split; intros Hok.
  - exists (merge_sort newest_first (snd <$> map_to_list (Products w))).
    pose proof (merge_sort_Permutation newest_first (snd <$> map_to_list (Products w))) as HP.
    split; [|split; [done|split; [|split]]].
    + unfold get_api_products, list_products. run. unfold Product_find_sort. by rewrite Hok.
    + intros p. by apply elem_of_stored.
    + by rewrite HP, length_fmap, length_map_to_list.
    + apply (StronglySorted_merge_sort newest_first).
  - exists (merge_sort hero_newest_first (snd <$> map_to_list (HeroImages w))).
    pose proof (merge_sort_Permutation hero_newest_first
                  (snd <$> map_to_list (HeroImages w))) as HP.
    split; [|split; [done|split; [|split]]].
    + unfold get_api_hero_images, list_heroes. run. unfold HeroImage_find_sort.
      by rewrite Hok.
    + intros h. by apply elem_of_stored.
    + by rewrite HP, length_fmap, length_map_to_list.
    + apply (StronglySorted_merge_sort hero_newest_first).
Qed.

Lemma list_all_newest_first_witness :
  (∃ ps : list Product,
     get_api_products Sample.env (Sample.incoming "" [] None) Sample.world
     = (Sample.world, {| status := 200; json := json_Products ps |})
     ∧ length ps = 2%nat
     ∧ StronglySorted (λ p q, createdAt q ≤ createdAt p) ps)
  ∧ (∃ hs : list HeroImage,
       get_api_hero_images Sample.env (Sample.incoming "" [] None) Sample.world
       = (Sample.world, {| status := 200; json := json_HeroImages hs |})
       ∧ length hs = 1%nat
       ∧ StronglySorted (λ p q, hero_createdAt q ≤ hero_createdAt p) hs).
Proof.
  destruct (list_all_newest_first Sample.env (Sample.incoming "" [] None) Sample.world)
    as [HP HH].
  split.
  - destruct HP as (ps & Hrun & _ & _ & Hlen & Hsorted); [reflexivity|].
    exists ps. split; [exact Hrun|]. split; [|exact Hsorted]. rewrite Hlen. reflexivity.
  - destruct HH as (hs & Hrun & _ & _ & Hlen & Hsorted); [reflexivity|].
    exists hs. split; [exact Hrun|]. split; [|exact Hsorted]. rewrite Hlen. reflexivity.
Defined.

Example list_products_sample :
  get_api_products Sample.env (Sample.incoming "" [] None) Sample.world
  = (Sample.world, {| status := 200; json := json_Products [Sample.lamp; Sample.chair] |}).
Proof. reflexivity. Qed.

(** *** C1 *)

(** C1. A product-create request carrying N image files, 1 ≤ N ≤ 5,
    that is answered 201 has persisted one Product, the body of the
    answer: its mainImage is the hosted URL returned for the first
    submitted file, and its otherImages are the hosted URLs of the
    remaining N−1 files, in submission order. *)
Theorem create_product_images (env : Env) (r : Incoming) (w : World) (fs : list File) :
  in_parts r = Some fs →
  (1 ≤ length fs ≤ 5)%nat →
  status (post_api_products env r w).2 = 201%nat →
  ∃ p : Product,
    (post_api_products env r w).2 = res_status_json 201 (json_Product p)
    ∧ Products (post_api_products env r w).1 = <[_id p := p]> (Products w)
    ∧ Products w !! _id p = None
    ∧ Some (mainImage p) = nth_hosted_url env (cloudinary w) "maison_products" fs 0
    ∧ length (otherImages p) = (length fs - 1)%nat
    ∧ ∀ i, otherImages p !! i
           = nth_hosted_url env (cloudinary w) "maison_products" fs (S i).
Proof.
  intros Hparts Hlen.
  destruct (create_product_outcome env r w fs Hparts Hlen)
    as [->|(results & r0 & doc & Hres & H0 & Hv & _ & Hfresh & ->)]; [done|].
  intros _. destruct (settle_all_urls _ _ _ _ _ Hres) as [Hlen' Hurl].
  destruct (validate_Product_Some _ _ _ Hv) as (Hid & Hmain & Hothers & _).
  simpl in Hid, Hmain, Hothers.
  exists (stamp_new (now env) doc). simpl. rewrite Hid, Hmain, Hothers.
  split; [done|]. split; [done|]. split; [done|]. split; [|split].
  - rewrite <- (Hurl 0%nat), H0. done.
  - rewrite length_fmap, length_drop. lia.
  - intros i. rewrite <- (Hurl (S i)), list_lookup_fmap, lookup_drop. done.
Qed.

Lemma create_product_images_witness :
  ∃ p : Product,
    (post_api_products Sample.env
       (Sample.incoming "" Sample.sofa
          (Some [Sample.photo "front"; Sample.photo "side"; Sample.photo "back"]))
       Sample.world).2
    = res_status_json 201 (json_Product p)
    ∧ mainImage p = "https://res.cloudinary.com/maison/img0"
    ∧ otherImages p = ["https://res.cloudinary.com/maison/img1";
                       "https://res.cloudinary.com/maison/img2"].
Proof.
  destruct (create_product_images Sample.env
              (Sample.incoming "" Sample.sofa
                 (Some [Sample.photo "front"; Sample.photo "side"; Sample.photo "back"]))
              Sample.world
              [Sample.photo "front"; Sample.photo "side"; Sample.photo "back"])
    as (p & Hrun & _ & _ & Hmain & Hlen & Hothers).
  - reflexivity.
  - simpl. lia.
  - reflexivity.
  - exists p. split; [exact Hrun|]. split.
    + apply (inj Some). rewrite Hmain. reflexivity.
    + assert (otherImages p !! 0%nat = Some "https://res.cloudinary.com/maison/img1") as H0
        by (rewrite Hothers; reflexivity).
      assert (otherImages p !! 1%nat = Some "https://res.cloudinary.com/maison/img2") as H1
        by (rewrite Hothers; reflexivity).
      destruct (otherImages p) as [|a [|b [|c l]]]; simpl in Hlen, H0, H1; try discriminate.
      congruence.
Defined.

(** *** C7 *)

Lemma strict_eq_true_text (v : Js.Value) :
  Js.strict_eq v (Js.Str "true") = true ↔ v = Js.Str "true".
Proof.
  destruct v; simpl; try (split; [discriminate|intros H; discriminate H]).
  rewrite String.eqb_eq. split; congruence.
Qed.

Lemma strict_eq_true_bool (v : Js.Value) :
  Js.strict_eq v (Js.Bool true) = true ↔ v = Js.Bool true.
Proof.
  destruct v as [| |b| | |]; simpl; try (split; [discriminate|intros H; discriminate H]).
  destruct b; simpl; split; congruence.
Qed.

(** C7. A hero-image-create request with exactly one file that is
    answered 201 has persisted one HeroImage, the body of the answer,
    whose isActive is true exactly when the submitted isActive is the
    text "true" or the boolean true; it is false for every other value
    and when isActive is omitted. *)
Theorem create_hero_isActive (env : Env) (r : Incoming) (w : World) (f : File) :
  in_parts r = Some [f] →
  status (post_api_hero_images env r w).2 = 201%nat →
  ∃ h : HeroImage,
    (post_api_hero_images env r w).2 = res_status_json 201 (json_HeroImage h)
    ∧ HeroImages (post_api_hero_images env r w).1 = <[hero_id h := h]> (HeroImages w)
    ∧ HeroImages w !! hero_id h = None
    ∧ (isActive h = true
       ↔ get (in_body r) "isActive" = Js.Str "true"
         ∨ get (in_body r) "isActive" = Js.Bool true)
    ∧ (in_body r !! "isActive" = None → isActive h = false).
Proof.
  intros Hparts.
  destruct (create_hero_outcome env r w f Hparts)
    as [->|(result & _ & _ & _ & Hfresh & ->)]; [done|].
  intros _. eexists. split; [reflexivity|]. simpl. split; [done|]. split; [done|]. split.
  - rewrite orb_true_iff, strict_eq_true_text, strict_eq_true_bool. done.
  - intros Hnone. unfold get. by rewrite Hnone.
Qed.

Lemma create_hero_isActive_witness :
  ∃ h : HeroImage,
    (post_api_hero_images Sample.env
       (Sample.incoming "" [("isActive", Js.Str "true")] (Some [Sample.photo "hero"]))
       Sample.world).2
    = res_status_json 201 (json_HeroImage h)
    ∧ isActive h = true.
Proof.
  destruct (create_hero_isActive Sample.env
              (Sample.incoming "" [("isActive", Js.Str "true")] (Some [Sample.photo "hero"]))
              Sample.world (Sample.photo "hero"))
    as (h & Hrun & _ & _ & Hiff & _).
  - reflexivity.
  - reflexivity.
  - exists h. split; [exact Hrun|]. apply Hiff. left. reflexivity.
Defined.
(** *** C5 *)

(** C5 as stated fails for an id that does not cast to an ObjectId: "abc"
    matches no stored HeroImage, the store cannot look it up, and the
    answer is 500. *)
Lemma toggle_malformed_id_500 :
  HeroImages Sample.world !! "abc" = None
  ∧ castable_ObjectId "abc" = false
  ∧ patch_api_hero_images_id_toggle Sample.env_casting
      (Sample.incoming "abc" [] None) Sample.world
    = (Sample.world, res_status_json 500 (json_error "Server error")).
Proof. split; [reflexivity|]. split; reflexivity. Qed.

(** C5 (amended). A toggle request whose id matches no stored HeroImage
    and whose lookup the store answers (the id casts to an ObjectId and
    the store is reachable) gets 404 and leaves the world as it was: no
    record is created or altered. *)
Theorem toggle_unknown_id_404 (env : Env) (r : Incoming) (w : World) :
  HeroImages w !! in_params_id r = None →
  store_rejects env (Op_HeroImage_findById (in_params_id r)) = false →
  patch_api_hero_images_id_toggle env r w
  = (w, res_status_json 404 (json_error "Hero image not found")).
Proof.
  intros Hnone Hok. unfold patch_api_hero_images_id_toggle, toggle_hero. run.
  unfold HeroImage_findById. simpl. by rewrite Hok, Hnone.
Qed.

Lemma toggle_unknown_id_404_witness :
  patch_api_hero_images_id_toggle Sample.env
    (Sample.incoming "65a0000000000000000000ff" [] None) Sample.world
  = (Sample.world, res_status_json 404 (json_error "Hero image not found")).
Proof. apply toggle_unknown_id_404; reflexivity. Defined.

(** *** C9 *)

(** C9 as stated fails for an id that does not cast to an ObjectId: the
    store cannot run the deletion of "abc", and both delete routes
    answer 500 instead of 200. *)
Lemma delete_malformed_id_500 :
  castable_ObjectId "abc" = false
  ∧ delete_api_products_id Sample.env_casting (Sample.incoming "abc" [] None) Sample.world
    = (Sample.world, res_status_json 500 (json_error "Server error"))
  ∧ delete_api_hero_images_id Sample.env_casting (Sample.incoming "abc" [] None) Sample.world
    = (Sample.world, res_status_json 500 (json_error "Server error")).
Proof. split; [reflexivity|]. split; reflexivity. Qed.

(** C9 (amended). A delete request on a Product id or on a HeroImage id
    whose deletion the store answers (the id casts to an ObjectId and the
    store is reachable) gets status 200 with the success message and
    removes the id from its collection; when the id matches no stored
    record the world is unchanged and the answer is the same success. *)
Theorem delete_reports_success (env : Env) (r : Incoming) (w : World) :
  (store_rejects env (Op_Product_findByIdAndDelete (in_params_id r)) = false →
   delete_api_products_id env r w
   = (set_Products (delete (in_params_id r) (Products w)) w,
      {| status := 200; json := json_message "Product deleted" |})
   ∧ (Products w !! in_params_id r = None →
      delete_api_products_id env r w
      = (w, {| status := 200; json := json_message "Product deleted" |})))
  ∧ (store_rejects env (Op_HeroImage_findByIdAndDelete (in_params_id r)) = false →
     delete_api_hero_images_id env r w
     = (set_HeroImages (delete (in_params_id r) (HeroImages w)) w,
        {| status := 200; json := json_message "Hero image deleted" |})
     ∧ (HeroImages w !! in_params_id r = None →
        delete_api_hero_images_id env r w
        = (w, {| status := 200; json := json_message "Hero image deleted" |}))).
Proof.
  split; intros Hok.
  - assert (delete_api_products_id env r w
            = (set_Products (delete (in_params_id r) (Products w)) w,
               {| status := 200; json := json_message "Product deleted" |})) as E.
    { unfold delete_api_products_id, delete_product. run.
      unfold Product_findByIdAndDelete. simpl. by rewrite Hok. }
    split; [done|]. intros Hnone. rewrite E.
    by rewrite (delete_id _ _ Hnone), set_Products_id.
  - assert (delete_api_hero_images_id env r w
            = (set_HeroImages (delete (in_params_id r) (HeroImages w)) w,
               {| status := 200; json := json_message "Hero image deleted" |})) as E.
    { unfold delete_api_hero_images_id, delete_hero. run.
      unfold HeroImage_findByIdAndDelete. simpl. by rewrite Hok. }
    split; [done|]. intros Hnone. rewrite E.
    by rewrite (delete_id _ _ Hnone), set_HeroImages_id.
Qed.

Lemma delete_reports_success_witness :
  delete_api_products_id Sample.env
    (Sample.incoming "65a0000000000000000000ff" [] None) Sample.world
  = (Sample.world, {| status := 200; json := json_message "Product deleted" |})
  ∧ delete_api_hero_images_id Sample.env
      (Sample.incoming "65a0000000000000000000ff" [] None) Sample.world
    = (Sample.world, {| status := 200; json := json_message "Hero image deleted" |}).
Proof.
  pose proof (delete_reports_success Sample.env
                (Sample.incoming "65a0000000000000000000ff" [] None) Sample.world) as [HP HH].
  split.
  - apply HP; reflexivity.
  - apply HH; reflexivity.
Defined.

(** *** C4 *)

(** C4 as stated fails on the sample banner toggled at time 2000: the
    lookup of its id, which gave updatedAt 1200 before, gives 2000
    after, so isActive is not the only outcome of the lookup that
    changes. *)
Lemma toggle_changes_lookup_updatedAt :
  let id := hero_id Sample.banner in
  let w' := (patch_api_hero_images_id_toggle Sample.env
               (Sample.incoming id [] None) Sample.world).1 in
  (HeroImage_findById Sample.env id Sample.world).2 = Resolved (Some Sample.banner)
  ∧ (HeroImage_findById Sample.env id w').2
    = Resolved (Some {| hero_id := id; imageUrl := imageUrl Sample.banner;
                        isActive := true; hero_createdAt := 1200; hero_updatedAt := 2000 |})
  ∧ hero_updatedAt Sample.banner = 1200.
Proof. simpl. split; [reflexivity|]. split; reflexivity. Qed.

(** C4 (amended). For a stored HeroImage, a toggle answered 200 writes
    the record back with isActive replaced by its negation and updatedAt
    set to the time of the save, and changes no other outcome of the
    lookup: the record keeps its identity, its imageUrl and its
    createdAt, and every other id is stored as before.  Applying toggle
    twice returns isActive to its original value. *)
Theorem toggle_twice_restores_isActive (env1 env2 : Env) (r : Incoming) (w : World)
    (h : HeroImage) :
  World_ok w →
  HeroImages w !! in_params_id r = Some h →
  status (patch_api_hero_images_id_toggle env1 r w).2 = 200%nat →
  status (patch_api_hero_images_id_toggle env2 r
            (patch_api_hero_images_id_toggle env1 r w).1).2 = 200%nat →
  ∃ h1 h2 : HeroImage,
    (patch_api_hero_images_id_toggle env1 r w).2
    = {| status := 200; json := json_HeroImage h1 |}
    ∧ HeroImages (patch_api_hero_images_id_toggle env1 r w).1
      = <[in_params_id r := h1]> (HeroImages w)
    ∧ isActive h1 = negb (isActive h)
    ∧ hero_updatedAt h1 = now env1
    ∧ hero_id h1 = hero_id h
    ∧ imageUrl h1 = imageUrl h
    ∧ hero_createdAt h1 = hero_createdAt h
    ∧ (patch_api_hero_images_id_toggle env2 r
         (patch_api_hero_images_id_toggle env1 r w).1).2
      = {| status := 200; json := json_HeroImage h2 |}
    ∧ HeroImages (patch_api_hero_images_id_toggle env2 r
                    (patch_api_hero_images_id_toggle env1 r w).1).1
      = <[in_params_id r := h2]> (HeroImages w)
    ∧ isActive h2 = isActive h
    ∧ hero_updatedAt h2 = now env2
    ∧ hero_id h2 = hero_id h
    ∧ imageUrl h2 = imageUrl h
    ∧ hero_createdAt h2 = hero_createdAt h.
Proof.
  intros Hw Hh H1 H2.
  pose proof (toggle_hero_200 env1 r w h Hw Hh H1) as E1.
  rewrite E1 in H2 |- *. cbn [fst snd] in H2 |- *.
  set (h1 := hero_stamp_modified (now env1) (flip_isActive h)) in *.
  set (w1 := set_HeroImages (<[in_params_id r := h1]> (HeroImages w)) w) in *.
  assert (HeroImages w1 !! in_params_id r = Some h1) as Hh1
    by (unfold w1; simpl; apply lookup_insert_eq).
  assert (World_ok w1) as Hw1.
  { apply set_HeroImages_ok; [done|]. destruct Hw as [_ Hids].
    apply (map_Forall_lookup_1 _ _ _ _ Hids Hh). }
  rewrite (toggle_hero_200 env2 r w1 h1 Hw1 Hh1 H2).
  exists h1, (hero_stamp_modified (now env2) (flip_isActive h1)). simpl.
  split_and!; try done.
  - by rewrite insert_insert_eq.
  - apply negb_involutive.
Qed.

Lemma toggle_twice_restores_isActive_witness :
  ∃ h1 h2 : HeroImage,
    (patch_api_hero_images_id_toggle Sample.env
       (Sample.incoming (hero_id Sample.banner) [] None) Sample.world).2
    = {| status := 200; json := json_HeroImage h1 |}
    ∧ isActive h1 = true
    ∧ (patch_api_hero_images_id_toggle Sample.env
         (Sample.incoming (hero_id Sample.banner) [] None)
         (patch_api_hero_images_id_toggle Sample.env
            (Sample.incoming (hero_id Sample.banner) [] None) Sample.world).1).2
      = {| status := 200; json := json_HeroImage h2 |}
    ∧ isActive h2 = false.
Proof.
  destruct (toggle_twice_restores_isActive Sample.env Sample.env
              (Sample.incoming (hero_id Sample.banner) [] None) Sample.world Sample.banner)
    as (h1 & h2 & Hrun1 & _ & Hflip & _ & _ & _ & _ & Hrun2 & _ & Hback & _).
  - exact sample_world_ok.
  - reflexivity.
  - reflexivity.
  - reflexivity.
  - exists h1, h2. split; [exact Hrun1|]. split; [exact Hflip|].
    split; [exact Hrun2|exact Hback].
Defined.

(** *** C10 *)

(** C10 as stated fails on the sample banner toggled at time 2000: the
    record stored afterwards is not the former record with only isActive
    negated, since its updatedAt went from 1200 to 2000. *)
Lemma toggle_refreshes_updatedAt :
  let w' := (patch_api_hero_images_id_toggle Sample.env
               (Sample.incoming (hero_id Sample.banner) [] None) Sample.world).1 in
  HeroImages Sample.world !! hero_id Sample.banner = Some Sample.banner
  ∧ HeroImages w' !! hero_id Sample.banner ≠ Some (flip_isActive Sample.banner)
  ∧ hero_updatedAt <$> HeroImages w' !! hero_id Sample.banner = Some 2000
  ∧ hero_updatedAt Sample.banner = 1200.
Proof.
  simpl. split; [reflexivity|]. split; [|split; reflexivity].
  vm_compute. discriminate.
Qed.

(** C10 (amended). A successful toggle of a stored HeroImage, that is
    one answered 200, modifies in that record only isActive (negated)
    and the timestamp updatedAt (set to the time of the save): its
    imageUrl, its identity and its createdAt are unchanged; every other
    HeroImage, every Product and the log of uploads are unchanged. *)
Theorem toggle_frame (env : Env) (r : Incoming) (w : World) (h : HeroImage) :
  World_ok w →
  HeroImages w !! in_params_id r = Some h →
  status (patch_api_hero_images_id_toggle env r w).2 = 200%nat →
  ∃ (h' : HeroImage) (w' : World),
    patch_api_hero_images_id_toggle env r w
    = (w', {| status := 200; json := json_HeroImage h' |})
    ∧ HeroImages w' !! in_params_id r = Some h'
    ∧ isActive h' = negb (isActive h)
    ∧ hero_updatedAt h' = now env
    ∧ imageUrl h' = imageUrl h
    ∧ hero_id h' = hero_id h
    ∧ hero_createdAt h' = hero_createdAt h
    ∧ (∀ id, id ≠ in_params_id r → HeroImages w' !! id = HeroImages w !! id)
    ∧ Products w' = Products w
    ∧ cloudinary w' = cloudinary w.
Proof.
  intros Hw Hh H200. eexists _, _. split; [by apply toggle_hero_200|].
  simpl. split; [apply lookup_insert_eq|]. repeat (split; [done|]).
  split; [|done]. intros id Hne. by apply lookup_insert_ne.
Qed.

Lemma toggle_frame_witness :
  ∃ (h' : HeroImage) (w' : World),
    patch_api_hero_images_id_toggle Sample.env
      (Sample.incoming (hero_id Sample.banner) [] None) Sample.world
    = (w', {| status := 200; json := json_HeroImage h' |})
    ∧ isActive h' = true
    ∧ hero_updatedAt h' = 2000
    ∧ imageUrl h' = imageUrl Sample.banner
    ∧ Products w' = Products Sample.world.
Proof.
  destruct (toggle_frame Sample.env (Sample.incoming (hero_id Sample.banner) [] None)
              Sample.world Sample.banner)
    as (h' & w' & Hrun & _ & Hflip & Hupd & Hurl & _ & _ & _ & Hprod & _).
  - exact sample_world_ok.
  - reflexivity.
  - reflexivity.
  - exists h', w'. repeat split; assumption.
Defined.

(** *** C6 *)

Lemma set_path_supplied (new old : Js.Value) : new ≠ Js.Undefined → set_path new old = new.
Proof. by destruct new. Qed.

(** C6 as stated fails for a body that supplies price only: quantity is
    coerced all the same, Number(undefined) is NaN, the update does not
    cast, and the answer is 500 with the stored price as it was. *)
Lemma update_price_only_500 :
  let r := Sample.incoming (_id Sample.chair) [("price", Js.Str "120")] None in
  put_api_products_id Sample.env r Sample.world
  = (Sample.world, res_status_json 500 (json_error "Server error"))
  ∧ price <$> Products (put_api_products_id Sample.env r Sample.world).1 !! _id Sample.chair
    = Some 80%float
  ∧ Js.Number Sample.rt (get (in_body r) "price") = 120%float.
Proof. simpl. split; [reflexivity|]. split; reflexivity. Qed.

(** C6 (amended). For a product-update request carrying no image files:
    whatever the answer, every stored Product keeps its mainImage and
    its otherImages, and no upload is issued.  The request is answered
    200 for a stored Product when its updateData casts to the schema
    (in particular price and quantity both coerce to numbers, not NaN)
    and the store accepts the update; then the stored record is the body
    of the answer, its price and quantity hold the numbers coerced from
    the body, each of name, category and description that the body
    supplies holds the supplied value as cast to String (a text is
    stored as sent), and the images are those of before. *)
Theorem update_without_files (env : Env) (r : Incoming) (w : World) :
  in_parts r = None ∨ in_parts r = Some [] →
  (∀ id p, Products w !! id = Some p →
     ∃ p', Products (put_api_products_id env r w).1 !! id = Some p'
           ∧ mainImage p' = mainImage p
           ∧ otherImages p' = otherImages p)
  ∧ cloudinary (put_api_products_id env r w).1 = cloudinary w
  ∧ (∀ p upd, Products w !! in_params_id r = Some p →
       cast_update (runtime env) (updateData_of_body env (in_body r)) = Some upd →
       store_rejects env (Op_Product_findByIdAndUpdate (in_params_id r) upd) = false →
       status (put_api_products_id env r w).2 = 200%nat)
  ∧ (∀ p, Products w !! in_params_id r = Some p →
          status (put_api_products_id env r w).2 = 200%nat →
          ∃ p' : Product,
            (put_api_products_id env r w).2 = {| status := 200; json := json_Product p' |}
            ∧ Products (put_api_products_id env r w).1
              = <[in_params_id r := p']> (Products w)
            ∧ mainImage p' = mainImage p
            ∧ otherImages p' = otherImages p
            ∧ price p' = Js.Number (runtime env) (get (in_body r) "price")
            ∧ quantity p' = Js.Number (runtime env) (get (in_body r) "quantity")
            ∧ PrimFloat.is_nan (price p') = false
            ∧ PrimFloat.is_nan (quantity p') = false
            ∧ (get (in_body r) "name" ≠ Js.Undefined
               → cast_String (runtime env) (get (in_body r) "name") = Some (name p'))
            ∧ (get (in_body r) "category" ≠ Js.Undefined
               → cast_String (runtime env) (get (in_body r) "category") = Some (category p'))
            ∧ (get (in_body r) "description" ≠ Js.Undefined
               → cast_String (runtime env) (get (in_body r) "description")
                 = Some (description p'))
            ∧ (∀ s, get (in_body r) "name" = Js.Str s → name p' = Js.Str s)
            ∧ (∀ s, get (in_body r) "category" = Js.Str s → category p' = Js.Str s)
            ∧ (∀ s, get (in_body r) "description" = Js.Str s → description p' = Js.Str s)).
Proof.
  intros Hnone. rewrite (update_without_files_run env r w Hnone).
  split; [|split; [|split]].
  - intros id p Hp.
    destruct (update_commit_cases env (in_params_id r) (updateData_of_body env (in_body r)) w)
      as [->|(upd & Hcast & _ & [[_ ->]|(q & Hq & ->)])]; [by exists p..|]. simpl.
    destruct (cast_update_Some _ _ _ Hcast) as (Hmain & Hothers & _).
    destruct (decide (in_params_id r = id)) as [Heq|Hne].
    + subst id. assert (q = p) as -> by congruence.
      rewrite lookup_insert_eq. eexists. split; [done|]. simpl.
      by rewrite Hmain, Hothers.
    + rewrite lookup_insert_ne by done. by exists p.
  - by destruct (update_commit_cases env (in_params_id r)
                   (updateData_of_body env (in_body r)) w)
      as [->|(upd & _ & _ & [[_ ->]|(q & _ & ->)])].
  - intros p upd Hp Hcast Hok. unfold update_commit. by rewrite Hcast, Hok, Hp.
  - intros p Hp.
    destruct (update_commit_cases env (in_params_id r) (updateData_of_body env (in_body r)) w)
      as [->|(upd & Hcast & _ & [[Hq _]|(q & Hq & ->)])]; [done|congruence|].
    assert (q = p) as -> by congruence. intros _.
    destruct (cast_update_Some _ _ _ Hcast)
      as (Hmain & Hothers & Hprice & Hquantity & Hname & Hcat & Hdesc & Hnan1 & Hnan2).
    simpl in Hmain, Hothers, Hprice, Hquantity, Hname, Hcat, Hdesc, Hnan1, Hnan2.
    eexists. split; [reflexivity|]. simpl. rewrite Hmain, Hothers, Hprice, Hquantity.
    split_and!; try done.
    + intros Hne. rewrite Hname, set_path_supplied; [done|].
      by apply (cast_String_undefined _ _ _ Hname).
    + intros Hne. rewrite Hcat, set_path_supplied; [done|].
      by apply (cast_String_undefined _ _ _ Hcat).
    + intros Hne. rewrite Hdesc, set_path_supplied; [done|].
      by apply (cast_String_undefined _ _ _ Hdesc).
    + intros s Hs. by rewrite (cast_String_text _ _ _ s Hname Hs).
    + intros s Hs. by rewrite (cast_String_text _ _ _ s Hcat Hs).
    + intros s Hs. by rewrite (cast_String_text _ _ _ s Hdesc Hs).
Qed.

Lemma update_without_files_witness :
  ∃ p' : Product,
    (put_api_products_id Sample.env
       (Sample.incoming (_id Sample.chair)
          [("name", Js.Str "Armchair"); ("price", Js.Str "120"); ("quantity", Js.Str "120")]
          (Some []))
       Sample.world).2
    = {| status := 200; json := json_Product p' |}
    ∧ mainImage p' = mainImage Sample.chair
    ∧ otherImages p' = otherImages Sample.chair
    ∧ price p' = 120%float
    ∧ name p' = Js.Str "Armchair".
Proof.
  destruct (update_without_files Sample.env
              (Sample.incoming (_id Sample.chair)
                 [("name", Js.Str "Armchair"); ("price", Js.Str "120");
                  ("quantity", Js.Str "120")] (Some []))
              Sample.world)
    as (_ & _ & _ & H).
  - right. reflexivity.
  - destruct (H Sample.chair)
      as (p' & Hrun & _ & Hmain & Hothers & Hprice & _ & _ & _ & _ & _ & _ & Hname & _).
    + reflexivity.
    + reflexivity.
    + exists p'. split; [exact Hrun|]. split; [exact Hmain|]. split; [exact Hothers|].
      split; [rewrite Hprice; reflexivity|]. apply Hname. reflexivity.
Defined.

(** ** Further properties of the routes *)

(** *** POST /api/products *)

(** X1. Whenever the create route runs on 1 to 5 files, every file is
    sent to the folder maison_products, in submission order, whatever
    the uploads and the store answer: a failed upload does not stop the
    others, and a failure of the save does not undo them. *)
Theorem create_issues_every_upload (env : Env) (r : Incoming) (w : World) (fs : list File) :
  in_parts r = Some fs →
  (1 ≤ length fs ≤ 5)%nat →
  cloudinary (post_api_products env r w).1
  = cloudinary w ++ upload_calls "maison_products" fs.
Proof.
  intros Hparts Hlen.
  by destruct (create_product_outcome env r w fs Hparts Hlen)
    as [->|(results & r0 & doc & _ & _ & _ & _ & _ & ->)].
Qed.

Lemma create_issues_every_upload_witness :
  cloudinary (post_api_products Sample.env_upload_fails
                (Sample.incoming "" [("name", Js.Str "Sofa")]
                   (Some [Sample.photo "front"; Sample.photo "side"; Sample.photo "back"]))
                Sample.world).1
  = [("maison_products", []); ("maison_products", []); ("maison_products", [])].
Proof.
  apply (create_issues_every_upload Sample.env_upload_fails
           (Sample.incoming "" [("name", Js.Str "Sofa")]
              (Some [Sample.photo "front"; Sample.photo "side"; Sample.photo "back"]))
           Sample.world
           [Sample.photo "front"; Sample.photo "side"; Sample.photo "back"]).
  - reflexivity.
  - simpl. lia.
Defined.

(** X2. When a create request on 1 to 5 files does not end in 201 (an
    upload fails, the document does not pass validation, the store
    refuses the save, or the generated id is taken), the route answers
    500 "Server error" and both collections are as before, while every
    upload stays issued: nothing removes the hosted images. *)
Theorem create_save_failure_orphans_uploads (env : Env) (r : Incoming) (w : World)
    (fs : list File) :
  in_parts r = Some fs →
  (1 ≤ length fs ≤ 5)%nat →
  status (post_api_products env r w).2 ≠ 201%nat →
  post_api_products env r w
  = (after_uploads "maison_products" fs w, res_status_json 500 (json_error "Server error"))
  ∧ Products (after_uploads "maison_products" fs w) = Products w
  ∧ HeroImages (after_uploads "maison_products" fs w) = HeroImages w
  ∧ cloudinary (after_uploads "maison_products" fs w)
    = cloudinary w ++ upload_calls "maison_products" fs
  ∧ length (cloudinary (after_uploads "maison_products" fs w))
    = (length (cloudinary w) + length fs)%nat.
Proof.
  intros Hparts Hlen H201. split; [|split; [done|split; [done|split; [done|]]]].
  - by destruct (create_product_outcome env r w fs Hparts Hlen)
      as [->|(results & r0 & doc & _ & _ & _ & _ & _ & E)]; [|rewrite E in H201].
  - simpl. unfold upload_calls. by rewrite length_app, length_fmap.
Qed.

(** A form without category: the upload succeeds, validation refuses the
    document. *)
Lemma create_save_failure_orphans_uploads_witness :
  post_api_products Sample.env
    (Sample.incoming "" [("name", Js.Str "Sofa"); ("price", Js.Str "120")]
       (Some [Sample.photo "front"]))
    Sample.world
  = (after_uploads "maison_products" [Sample.photo "front"] Sample.world,
     res_status_json 500 (json_error "Server error")).
Proof.
  apply (create_save_failure_orphans_uploads Sample.env
           (Sample.incoming "" [("name", Js.Str "Sofa"); ("price", Js.Str "120")]
              (Some [Sample.photo "front"]))
           Sample.world [Sample.photo "front"]).
  - reflexivity.
  - simpl. lia.
  - vm_compute. discriminate.
Defined.

(** X3. The create route changes the collections only when it answers
    201: with any other status both collections are as before; with 201
    the generated id was free, exactly one Product was inserted under
    it, and that Product, stamped with the time of the save in createdAt
    and updatedAt, is the body of the answer. *)
Theorem create_persists_only_on_201 (env : Env) (r : Incoming) (w : World) :
  (status (post_api_products env r w).2 ≠ 201%nat →
   Products (post_api_products env r w).1 = Products w
   ∧ HeroImages (post_api_products env r w).1 = HeroImages w)
  ∧ (status (post_api_products env r w).2 = 201%nat →
     ∃ p : Product,
       json (post_api_products env r w).2 = json_Product p
       ∧ Products w !! new_ObjectId env = None
       ∧ Products (post_api_products env r w).1 = <[new_ObjectId env := p]> (Products w)
       ∧ HeroImages (post_api_products env r w).1 = HeroImages w
       ∧ size (Products (post_api_products env r w).1) = S (size (Products w))
       ∧ _id p = new_ObjectId env
       ∧ createdAt p = now env
       ∧ updatedAt p = now env).
Proof.
  destruct (create_product_cases env r w) as [(code & b & Hcode & ->)|(fs & Hparts & Hlen)].
  { simpl. split; [done|]. intros ->. by destruct Hcode. }
  destruct (create_product_outcome env r w fs Hparts Hlen)
    as [->|(results & r0 & doc & _ & _ & Hv & _ & Hfresh & ->)]; [by split|].
  destruct (validate_Product_Some _ _ _ Hv) as (Hid & _). simpl in Hid.
  simpl. split; [done|]. intros _. eexists. split; [done|].
  split; [done|]. split; [done|]. split; [done|].
  split; [by apply map_size_insert_None|]. done.
Qed.

Lemma create_persists_only_on_201_witness :
  Products (post_api_products Sample.env_upload_fails
              (Sample.incoming "" [("name", Js.Str "Sofa")]
                 (Some [Sample.photo "front"; Sample.photo "side"]))
              Sample.world).1
  = Products Sample.world.
Proof.
  apply (create_persists_only_on_201 Sample.env_upload_fails
           (Sample.incoming "" [("name", Js.Str "Sofa")]
              (Some [Sample.photo "front"; Sample.photo "side"]))
           Sample.world).
  vm_compute. discriminate.
Defined.

(** X4. A Product created with 201 carries the body as the handler read
    it and as the schema casts it: name, category and description are
    the sent values cast to String (a text is stored as sent), name and
    category being texts that are not empty; price is Number(price);
    quantity is Number(quantity) when the sent value is truthy and 0
    otherwise, so an omitted quantity is stored as 0; neither number is
    NaN. *)
Theorem create_stores_body_fields (env : Env) (r : Incoming) (w : World) :
  status (post_api_products env r w).2 = 201%nat →
  ∃ p : Product,
    Products (post_api_products env r w).1 !! new_ObjectId env = Some p
    ∧ cast_String (runtime env) (get (in_body r) "name") = Some (name p)
    ∧ cast_String (runtime env) (get (in_body r) "category") = Some (category p)
    ∧ cast_String (runtime env) (get (in_body r) "description") = Some (description p)
    ∧ (∀ s, get (in_body r) "name" = Js.Str s → name p = Js.Str s)
    ∧ (∀ s, get (in_body r) "category" = Js.Str s → category p = Js.Str s)
    ∧ (∀ s, get (in_body r) "description" = Js.Str s → description p = Js.Str s)
    ∧ required_String (name p) = true
    ∧ required_String (category p) = true
    ∧ price p = Js.Number (runtime env) (get (in_body r) "price")
    ∧ quantity p
      = (if Js.truthy (get (in_body r) "quantity")
         then Js.Number (runtime env) (get (in_body r) "quantity")
         else 0%float)
    ∧ (in_body r !! "quantity" = None → quantity p = 0%float)
    ∧ PrimFloat.is_nan (price p) = false
    ∧ PrimFloat.is_nan (quantity p) = false.
Proof.
  destruct (create_product_cases env r w) as [(code & b & Hcode & ->)|(fs & Hparts & Hlen)].
  { simpl. intros ->. by destruct Hcode. }
  destruct (create_product_outcome env r w fs Hparts Hlen)
    as [->|(results & r0 & doc & _ & _ & Hv & _ & Hfresh & ->)]; [done|].
  destruct (validate_Product_Some _ _ _ Hv)
    as (_ & _ & _ & Hprice & Hquantity & _ & _ & Hname & Hcat & Hdesc & Hrn & Hrc & _
        & Hnan1 & Hnan2).
  simpl in Hprice, Hquantity, Hname, Hcat, Hdesc, Hnan1, Hnan2.
  intros _. eexists. split; [apply lookup_insert_eq|]. simpl.
  rewrite Hprice, Hquantity. split_and!; try done.
  - intros s Hs. by rewrite (cast_String_text _ _ _ s Hname Hs).
  - intros s Hs. by rewrite (cast_String_text _ _ _ s Hcat Hs).
  - intros s Hs. by rewrite (cast_String_text _ _ _ s Hdesc Hs).
  - intros Hnone. unfold get. by rewrite Hnone.
Qed.

Lemma create_stores_body_fields_witness :
  ∃ p : Product,
    Products (post_api_products Sample.env
                (Sample.incoming "" Sample.sofa (Some [Sample.photo "front"]))
                Sample.world).1 !! new_ObjectId Sample.env = Some p
    ∧ name p = Js.Str "Sofa"
    ∧ price p = 120%float
    ∧ quantity p = 0%float.
Proof.
  destruct (create_stores_body_fields Sample.env
              (Sample.incoming "" Sample.sofa (Some [Sample.photo "front"]))
              Sample.world)
    as (p & Hp & _ & _ & _ & Hname & _ & _ & _ & _ & Hprice & _ & Hq & _).
  - reflexivity.
  - exists p. split; [exact Hp|]. split; [apply Hname; reflexivity|].
    split; [rewrite Hprice; reflexivity|]. apply Hq. reflexivity.
Defined.

(** *** PUT /api/products/:id *)

(** X5. An update request carrying 1 to 5 files, for a stored Product,
    that is answered 200 has uploaded every file and replaced both image
    fields wholesale, mainImage by the hosted URL of the first file and
    otherImages by those of the N−1 other files in order, whatever they
    held before; _id and createdAt are kept, updatedAt is the time of the
    update, and the other Products are untouched. *)
Theorem update_with_files_replaces_images (env : Env) (r : Incoming) (w : World)
    (fs : list File) (p : Product) :
  in_parts r = Some fs →
  (1 ≤ length fs ≤ 5)%nat →
  Products w !! in_params_id r = Some p →
  status (put_api_products_id env r w).2 = 200%nat →
  ∃ p' : Product,
    (put_api_products_id env r w).2 = {| status := 200; json := json_Product p' |}
    ∧ Products (put_api_products_id env r w).1 = <[in_params_id r := p']> (Products w)
    ∧ Some (mainImage p') = nth_hosted_url env (cloudinary w) "maison_products" fs 0
    ∧ length (otherImages p') = (length fs - 1)%nat
    ∧ (∀ i, otherImages p' !! i
            = nth_hosted_url env (cloudinary w) "maison_products" fs (S i))
    ∧ _id p' = _id p
    ∧ createdAt p' = createdAt p
    ∧ updatedAt p' = now env
    ∧ cloudinary (put_api_products_id env r w).1
      = cloudinary w ++ upload_calls "maison_products" fs.
Proof.
  intros Hparts Hlen Hp. rewrite (update_product_run env r w fs Hparts Hlen).
  destruct (Promise_all _) as [results|e] eqn:Hall; [|done].
  apply Promise_all_resolved_inv in Hall.
  destruct (settle_all_urls _ _ _ _ _ Hall) as [Hlen' Hurl].
  destruct (results !! 0%nat) as [r0|] eqn:H0; [|done].
  destruct (update_commit_cases env (in_params_id r)
              (updateData_with_images env (in_body r) (secure_url r0) results)
              (after_uploads "maison_products" fs w))
    as [->|(upd & Hcast & _ & [[Hq _]|(q & Hq & ->)])]; [done|simpl in Hq; congruence|].
  simpl in Hq. assert (q = p) as -> by congruence. intros _.
  destruct (cast_update_Some _ _ _ Hcast) as (Hmain & Hothers & _).
  simpl in Hmain, Hothers.
  eexists. split; [reflexivity|]. simpl. rewrite Hmain, Hothers. simpl.
  split; [done|]. split; [by rewrite <- (Hurl 0%nat), H0|].
  split; [rewrite length_fmap, length_drop; lia|].
  split; [|done]. intros i. by rewrite <- (Hurl (S i)), list_lookup_fmap, lookup_drop.
Qed.

Lemma update_with_files_replaces_images_witness :
  ∃ p' : Product,
    (put_api_products_id Sample.env
       (Sample.incoming (_id Sample.chair) [("price", Js.Str "120"); ("quantity", Js.Str "120")]
          (Some [Sample.photo "new"]))
       Sample.world).2
    = {| status := 200; json := json_Product p' |}
    ∧ mainImage p' = "https://res.cloudinary.com/maison/img0"
    ∧ otherImages p' = [].
Proof.
  destruct (update_with_files_replaces_images Sample.env
              (Sample.incoming (_id Sample.chair)
                 [("price", Js.Str "120"); ("quantity", Js.Str "120")]
                 (Some [Sample.photo "new"]))
              Sample.world [Sample.photo "new"] Sample.chair)
    as (p' & Hrun & _ & Hmain & Hlen & _).
  - reflexivity.
  - simpl. lia.
  - reflexivity.
  - reflexivity.
  - exists p'. split; [exact Hrun|]. split.
    + apply (inj Some). rewrite Hmain. reflexivity.
    + by destruct (otherImages p').
Defined.

(** X6. Whatever the request and whatever the uploads and the store
    answer, the update route creates no Product and removes none, and
    a Product that stays keeps its _id and its createdAt; the HeroImages
    are untouched. *)
Theorem update_keeps_identities (env : Env) (r : Incoming) (w : World) :
  (∀ id, Products w !! id = None → Products (put_api_products_id env r w).1 !! id = None)
  ∧ (∀ id p, Products w !! id = Some p →
       ∃ p', Products (put_api_products_id env r w).1 !! id = Some p'
             ∧ _id p' = _id p ∧ createdAt p' = createdAt p)
  ∧ HeroImages (put_api_products_id env r w).1 = HeroImages w.
Proof.
  destruct (update_product_cases env r w)
    as [->|(w1 & HP & HH & _ & [->|(upd0 & _ & ->)])]; simpl.
  - split; [done|]. split; [|done]. intros id p Hp. by exists p.
  - rewrite HP, HH. split; [done|]. split; [|done]. intros id p Hp. by exists p.
  - destruct (update_commit_cases env (in_params_id r) upd0 w1)
      as [->|(upd & _ & _ & [[_ ->]|(q & Hq & ->)])]; simpl; rewrite ?HP, ?HH.
    + split; [done|]. split; [|done]. intros id p Hp. by exists p.
    + split; [done|]. split; [|done]. intros id p Hp. by exists p.
    + rewrite HP in Hq. split; [|split; [|done]].
      * intros id Hnone. rewrite lookup_insert_ne; [done|]. congruence.
      * intros id p Hp. destruct (decide (in_params_id r = id)) as [Heq|Hne].
        -- subst id. assert (q = p) as -> by congruence.
           rewrite lookup_insert_eq. by eexists.
        -- rewrite lookup_insert_ne by done. by exists p.
Qed.

(** X7. An update request for an id that matches no stored Product, if
    it is answered 200, gets a null body and changes neither collection:
    the unknown id is not reported as an error, and no record is created
    for it.  Without files it is answered 200 as soon as the updateData
    casts to the schema (price and quantity coerce to numbers) and the
    store accepts the operation. *)
Theorem update_unknown_id_null (env : Env) (r : Incoming) (w : World) :
  Products w !! in_params_id r = None →
  (status (put_api_products_id env r w).2 = 200%nat →
   (put_api_products_id env r w).2 = {| status := 200; json := json_null |}
   ∧ Products (put_api_products_id env r w).1 = Products w
   ∧ HeroImages (put_api_products_id env r w).1 = HeroImages w)
  ∧ (∀ upd, in_parts r = None ∨ in_parts r = Some [] →
            cast_update (runtime env) (updateData_of_body env (in_body r)) = Some upd →
            store_rejects env (Op_Product_findByIdAndUpdate (in_params_id r) upd) = false →
            put_api_products_id env r w = (w, {| status := 200; json := json_null |})).
Proof.
  intros Hnone. split.
  - destruct (update_product_cases env r w)
      as [->|(w1 & HP & HH & _ & [->|(upd0 & _ & ->)])]; [done..|].
    destruct (update_commit_cases env (in_params_id r) upd0 w1)
      as [->|(upd & _ & _ & [[_ ->]|(q & Hq & ->)])]; [done| |].
    + intros _. simpl. by rewrite HP, HH.
    + rewrite HP in Hq. congruence.
  - intros upd Hfiles Hcast Hok. rewrite (update_without_files_run env r w Hfiles).
    unfold update_commit. by rewrite Hcast, Hok, Hnone.
Qed.

Lemma update_unknown_id_null_witness :
  put_api_products_id Sample.env
    (Sample.incoming "65a0000000000000000000ff"
       [("price", Js.Str "120"); ("quantity", Js.Str "120")] None)
    Sample.world
  = (Sample.world, {| status := 200; json := json_null |}).
Proof.
  eapply (update_unknown_id_null Sample.env
            (Sample.incoming "65a0000000000000000000ff"
               [("price", Js.Str "120"); ("quantity", Js.Str "120")] None)
            Sample.world).
  - reflexivity.
  - left. reflexivity.
  - reflexivity.
  - reflexivity.
Defined.

(** *** POST /api/hero-images *)

(** X8. A hero-image-create request without a file (a body that is not
    multipart, or one with no file part) is answered 400 "No image
    uploaded" with the world untouched: nothing is uploaded and nothing
    is stored. *)
Theorem create_hero_no_file_400 (env : Env) (r : Incoming) (w : World) :
  in_parts r = None ∨ in_parts r = Some [] →
  post_api_hero_images env r w
  = (w, res_status_json 400 (json_error "No image uploaded")).
Proof.
  intros [H|H]; unfold post_api_hero_images, route, upload_single; by rewrite H.
Qed.

Lemma create_hero_no_file_400_witness :
  post_api_hero_images Sample.env
    (Sample.incoming "" [("isActive", Js.Str "true")] None) Sample.world
  = (Sample.world, res_status_json 400 (json_error "No image uploaded")).
Proof. apply create_hero_no_file_400. left. reflexivity. Defined.

(** X9. A hero-image-create request with one file that is answered 201
    has made exactly one upload, to the folder maison_hero, and has
    persisted one HeroImage under the generated id, which was free: its
    imageUrl is the hosted URL returned for the file, which is not
    empty, and its two timestamps are the time of the save.  The Products
    are untouched. *)
Theorem create_hero_persists (env : Env) (r : Incoming) (w : World) (f : File) :
  in_parts r = Some [f] →
  status (post_api_hero_images env r w).2 = 201%nat →
  ∃ h : HeroImage,
    (post_api_hero_images env r w).2 = res_status_json 201 (json_HeroImage h)
    ∧ HeroImages (post_api_hero_images env r w).1
      = <[new_ObjectId env := h]> (HeroImages w)
    ∧ HeroImages w !! new_ObjectId env = None
    ∧ hero_id h = new_ObjectId env
    ∧ hosted_url env (cloudinary w) "maison_hero" f = Some (imageUrl h)
    ∧ imageUrl h ≠ ""
    ∧ hero_createdAt h = now env
    ∧ hero_updatedAt h = now env
    ∧ Products (post_api_hero_images env r w).1 = Products w
    ∧ cloudinary (post_api_hero_images env r w).1
      = cloudinary w ++ [("maison_hero", buffer f)].
Proof.
  intros Hparts.
  destruct (create_hero_outcome env r w f Hparts)
    as [->|(result & Hres & Hurl & _ & Hfresh & ->)]; [done|].
  intros _. eexists. split; [reflexivity|]. simpl.
  unfold hosted_url. rewrite Hres. done.
Qed.

Lemma create_hero_persists_witness :
  ∃ h : HeroImage,
    (post_api_hero_images Sample.env
       (Sample.incoming "" [] (Some [Sample.photo "hero"])) Sample.world).2
    = res_status_json 201 (json_HeroImage h)
    ∧ imageUrl h = "https://res.cloudinary.com/maison/img0"
    ∧ cloudinary (post_api_hero_images Sample.env
                    (Sample.incoming "" [] (Some [Sample.photo "hero"])) Sample.world).1
      = [("maison_hero", [])].
Proof.
  destruct (create_hero_persists Sample.env
              (Sample.incoming "" [] (Some [Sample.photo "hero"])) Sample.world
              (Sample.photo "hero"))
    as (h & Hrun & _ & _ & _ & Hurl & _ & _ & _ & _ & Hlog).
  - reflexivity.
  - reflexivity.
  - exists h. split; [exact Hrun|]. split; [|exact Hlog].
    apply (inj Some). rewrite <- Hurl. reflexivity.
Defined.

(** X10. When a hero-image-create request carries one file and does not
    end in 201 (the upload fails, the document does not pass validation,
    the store refuses the save, or the id is taken), the answer is 500
    "Server error", both collections are as before, and the upload stays
    issued. *)
Theorem create_hero_failure_500 (env : Env) (r : Incoming) (w : World) (f : File) :
  in_parts r = Some [f] →
  status (post_api_hero_images env r w).2 ≠ 201%nat →
  post_api_hero_images env r w
  = (after_uploads "maison_hero" [f] w, res_status_json 500 (json_error "Server error"))
  ∧ Products (post_api_hero_images env r w).1 = Products w
  ∧ HeroImages (post_api_hero_images env r w).1 = HeroImages w
  ∧ cloudinary (post_api_hero_images env r w).1
    = cloudinary w ++ [("maison_hero", buffer f)].
Proof.
  intros Hparts.
  by destruct (create_hero_outcome env r w f Hparts)
    as [->|(result & _ & _ & _ & _ & ->)].
Qed.

Lemma create_hero_failure_500_witness :
  post_api_hero_images
    {| runtime := Sample.rt; now := 2000; new_ObjectId := "65a000000000000000000009";
       upload_stream := λ _ _ _, (Some "timeout", None); store_rejects := λ _, false |}
    (Sample.incoming "" [] (Some [Sample.photo "hero"])) Sample.world
  = (after_uploads "maison_hero" [Sample.photo "hero"] Sample.world,
     res_status_json 500 (json_error "Server error")).
Proof.
  apply (create_hero_failure_500
           {| runtime := Sample.rt; now := 2000; new_ObjectId := "65a000000000000000000009";
              upload_stream := λ _ _ _, (Some "timeout", None); store_rejects := λ _, false |}
           (Sample.incoming "" [] (Some [Sample.photo "hero"])) Sample.world
           (Sample.photo "hero")).
  - reflexivity.
  - vm_compute. discriminate.
Defined.

(** *** Multer *)

(** X11. A request with more file parts than the route accepts (more
    than 5 on the two product routes, more than 1 on the hero route)
    never reaches the handler: the answer is 500 and the world is
    untouched, with no upload and no access to the store. *)
Theorem too_many_files_500 (env : Env) (r : Incoming) (w : World) (fs : list File) :
  in_parts r = Some fs →
  ((5 < length fs)%nat →
   post_api_products env r w = (w, res_status_json 500 express_error_page)
   ∧ put_api_products_id env r w = (w, res_status_json 500 express_error_page))
  ∧ ((1 < length fs)%nat →
     post_api_hero_images env r w = (w, res_status_json 500 express_error_page)).
Proof.
  intros Hparts. split; intros Hlen.
  - unfold post_api_products, put_api_products_id, route, upload_array. rewrite Hparts.
    rewrite decide_False by lia. done.
  - unfold post_api_hero_images, route, upload_single. rewrite Hparts.
    destruct fs as [|f [|g fs]]; simpl in Hlen; try lia. done.
Qed.

Lemma too_many_files_500_witness :
  post_api_hero_images Sample.env
    (Sample.incoming "" [] (Some [Sample.photo "a"; Sample.photo "b"])) Sample.world
  = (Sample.world, res_status_json 500 express_error_page).
Proof.
  apply (too_many_files_500 Sample.env
           (Sample.incoming "" [] (Some [Sample.photo "a"; Sample.photo "b"])) Sample.world
           [Sample.photo "a"; Sample.photo "b"]).
  - reflexivity.
  - simpl. lia.
Defined.

(** *** All routes *)

Ltac create_product_by_cases env r w :=
  let code := fresh "code" in let b := fresh "b" in
  let fs := fresh "fs" in let Hp := fresh "Hp" in let Hl := fresh "Hl" in
  destruct (create_product_cases env r w) as [(code & b & [->| ->] & ->)|(fs & Hp & Hl)];
  [| |destruct (create_product_outcome env r w fs Hp Hl)
        as [->|(? & ? & ? & _ & _ & _ & _ & _ & ->)]].

Ltac create_hero_by_cases env r w :=
  let code := fresh "code" in let b := fresh "b" in
  let f := fresh "f" in let Hp := fresh "Hp" in
  destruct (create_hero_cases env r w) as [(code & b & [->| ->] & ->)|(f & Hp)];
  [| |destruct (create_hero_outcome env r w f Hp) as [->|(? & _ & _ & _ & _ & ->)]].

Ltac update_by_cases env r w :=
  let w1 := fresh "w1" in let HP := fresh "HP" in let HH := fresh "HH" in
  let k := fresh "k" in let Hk := fresh "Hk" in let upd0 := fresh "upd0" in
  destruct (update_product_cases env r w)
    as [->|(w1 & HP & HH & [k Hk] & [->|(upd0 & _ & ->)])];
  [| |destruct (update_commit_cases env (in_params_id r) upd0 w1)
        as [->|(? & _ & _ & [[_ ->]|(? & _ & ->)])]].

(** X12. Whatever the request, the uploads and the store do, each route
    answers, and only with the statuses of its own list: 201, 400 or 500
    for the two create routes, 200 or 500 for the listings, the deletes
    and the update, and 200, 404 or 500 for the toggle. *)
Theorem routes_statuses (env : Env) (r : Incoming) (w : World) :
  status_in [201; 400; 500]%nat (post_api_products env r w).2
  ∧ status_in [200; 500]%nat (get_api_products env r w).2
  ∧ status_in [200; 500]%nat (delete_api_products_id env r w).2
  ∧ status_in [200; 500]%nat (put_api_products_id env r w).2
  ∧ status_in [201; 400; 500]%nat (post_api_hero_images env r w).2
  ∧ status_in [200; 500]%nat (get_api_hero_images env r w).2
  ∧ status_in [200; 404; 500]%nat (patch_api_hero_images_id_toggle env r w).2
  ∧ status_in [200; 500]%nat (delete_api_hero_images_id env r w).2.
Proof.
  split_and!.
  - create_product_by_cases env r w; in_codes.
  - destruct (list_products_cases env r w) as [->|[ps ->]]; in_codes.
  - destruct (delete_product_cases env r w) as [->| ->]; in_codes.
  - update_by_cases env r w; in_codes.
  - create_hero_by_cases env r w; in_codes.
  - destruct (list_heroes_cases env r w) as [->|[hs ->]]; in_codes.
  - destruct (toggle_hero_cases env r w) as [->|[[_ ->]|(h & _ & _ & ->)]]; in_codes.
  - destruct (delete_hero_cases env r w) as [->| ->]; in_codes.
Qed.

(** X13. The two listing routes never change the world, whether the
    store answers them or fails. *)
Theorem listings_read_only (env : Env) (r : Incoming) (w : World) :
  (get_api_products env r w).1 = w ∧ (get_api_hero_images env r w).1 = w.
Proof.
  split.
  - by destruct (list_products_cases env r w) as [->|[ps ->]].
  - by destruct (list_heroes_cases env r w) as [->|[hs ->]].
Qed.

(** X14. The two collections are independent: no product route ever
    changes the HeroImages, and no hero route ever changes the Products,
    whatever the request, the uploads and the store do. *)
Theorem collections_independent (env : Env) (r : Incoming) (w : World) :
  HeroImages (post_api_products env r w).1 = HeroImages w
  ∧ HeroImages (get_api_products env r w).1 = HeroImages w
  ∧ HeroImages (delete_api_products_id env r w).1 = HeroImages w
  ∧ HeroImages (put_api_products_id env r w).1 = HeroImages w
  ∧ Products (post_api_hero_images env r w).1 = Products w
  ∧ Products (get_api_hero_images env r w).1 = Products w
  ∧ Products (patch_api_hero_images_id_toggle env r w).1 = Products w
  ∧ Products (delete_api_hero_images_id env r w).1 = Products w.
Proof.
  split_and!.
  - create_product_by_cases env r w; done.
  - by destruct (list_products_cases env r w) as [->|[ps ->]].
  - by destruct (delete_product_cases env r w) as [->| ->].
  - update_by_cases env r w; done.
  - create_hero_by_cases env r w; done.
  - by destruct (list_heroes_cases env r w) as [->|[hs ->]].
  - by destruct (toggle_hero_cases env r w) as [->|[[_ ->]|(h & _ & _ & ->)]].
  - by destruct (delete_hero_cases env r w) as [->| ->].
Qed.

(** X15. Uploads are only ever added: after any route the log of uploads
    starts with the log of before.  The listings, the deletes and the
    toggle leave it as it was: only the two create routes and the update
    route send anything to the image host. *)
Theorem uploads_only_grow (env : Env) (r : Incoming) (w : World) :
  cloudinary w `prefix_of` cloudinary (post_api_products env r w).1
  ∧ cloudinary w `prefix_of` cloudinary (put_api_products_id env r w).1
  ∧ cloudinary w `prefix_of` cloudinary (post_api_hero_images env r w).1
  ∧ cloudinary (get_api_products env r w).1 = cloudinary w
  ∧ cloudinary (delete_api_products_id env r w).1 = cloudinary w
  ∧ cloudinary (get_api_hero_images env r w).1 = cloudinary w
  ∧ cloudinary (patch_api_hero_images_id_toggle env r w).1 = cloudinary w
  ∧ cloudinary (delete_api_hero_images_id env r w).1 = cloudinary w.
Proof.
  split_and!.
  - create_product_by_cases env r w; try done; by apply prefix_app_r.
  - update_by_cases env r w; try done; simpl; rewrite Hk; by apply prefix_app_r.
  - create_hero_by_cases env r w; try done; by apply prefix_app_r.
  - by destruct (list_products_cases env r w) as [->|[ps ->]].
  - by destruct (delete_product_cases env r w) as [->| ->].
  - by destruct (list_heroes_cases env r w) as [->|[hs ->]].
  - by destruct (toggle_hero_cases env r w) as [->|[[_ ->]|(h & _ & _ & ->)]].
  - by destruct (delete_hero_cases env r w) as [->| ->].
Qed.

(** X16. When the store fails every operation, no route changes either
    collection and none answers 200 or 201: the listings, the deletes,
    the toggle and the update answer 500, and the two create routes
    answer 500, or 400 when the files are missing. *)
Theorem store_down_no_change (env : Env) (r : Incoming) (w : World) :
  store_down env →
  get_api_products env r w = (w, res_status_json 500 (json_error "Server error"))
  ∧ delete_api_products_id env r w = (w, res_status_json 500 (json_error "Server error"))
  ∧ get_api_hero_images env r w = (w, res_status_json 500 (json_error "Server error"))
  ∧ patch_api_hero_images_id_toggle env r w
    = (w, res_status_json 500 (json_error "Server error"))
  ∧ delete_api_hero_images_id env r w
    = (w, res_status_json 500 (json_error "Server error"))
  ∧ (status (put_api_products_id env r w).2 = 500%nat
     ∧ Products (put_api_products_id env r w).1 = Products w)
  ∧ (status_in [400; 500]%nat (post_api_products env r w).2
     ∧ Products (post_api_products env r w).1 = Products w)
  ∧ (status_in [400; 500]%nat (post_api_hero_images env r w).2
     ∧ HeroImages (post_api_hero_images env r w).1 = HeroImages w).
Proof.
  intros Hdown. split_and!.
  - unfold get_api_products, list_products. run. unfold Product_find_sort.
    by rewrite Hdown.
  - unfold delete_api_products_id, delete_product. run. unfold Product_findByIdAndDelete.
    by rewrite Hdown.
  - unfold get_api_hero_images, list_heroes. run. unfold HeroImage_find_sort.
    by rewrite Hdown.
  - unfold patch_api_hero_images_id_toggle, toggle_hero. run. unfold HeroImage_findById.
    by rewrite Hdown.
  - unfold delete_api_hero_images_id, delete_hero. run. unfold HeroImage_findByIdAndDelete.
    by rewrite Hdown.
  - destruct (update_product_cases env r w)
      as [->|(w1 & _ & _ & _ & [->|(upd0 & _ & ->)])]; [done..|].
    destruct (update_commit_cases env (in_params_id r) upd0 w1)
      as [->|(upd & _ & Hok & _)]; [done|]. by rewrite Hdown in Hok.
  - destruct (update_product_cases env r w)
      as [->|(w1 & HP & _ & _ & [->|(upd0 & _ & ->)])]; [done..|].
    destruct (update_commit_cases env (in_params_id r) upd0 w1)
      as [->|(upd & _ & Hok & _)]; [done|]. by rewrite Hdown in Hok.
  - destruct (create_product_cases env r w) as [(code & b & [->| ->] & ->)|(fs & Hp & Hl)];
      [in_codes..|].
    destruct (create_product_outcome env r w fs Hp Hl)
      as [->|(? & ? & ? & _ & _ & _ & Hok & _)]; [in_codes|]. by rewrite Hdown in Hok.
  - destruct (create_product_cases env r w) as [(code & b & _ & ->)|(fs & Hp & Hl)]; [done|].
    destruct (create_product_outcome env r w fs Hp Hl)
      as [->|(? & ? & ? & _ & _ & _ & Hok & _)]; [done|]. by rewrite Hdown in Hok.
  - destruct (create_hero_cases env r w) as [(code & b & [->| ->] & ->)|(f & Hp)];
      [in_codes..|].
    destruct (create_hero_outcome env r w f Hp) as [->|(? & _ & _ & Hok & _)]; [in_codes|].
    by rewrite Hdown in Hok.
  - destruct (create_hero_cases env r w) as [(code & b & _ & ->)|(f & Hp)]; [done|].
    destruct (create_hero_outcome env r w f Hp) as [->|(? & _ & _ & Hok & _)]; [done|].
    by rewrite Hdown in Hok.
Qed.

Lemma store_down_no_change_witness :
  patch_api_hero_images_id_toggle
    {| runtime := Sample.rt; now := 2000; new_ObjectId := "65a000000000000000000009";
       upload_stream := upload_stream Sample.env; store_rejects := λ _, true |}
    (Sample.incoming (hero_id Sample.banner) [] None) Sample.world
  = (Sample.world, res_status_json 500 (json_error "Server error")).
Proof.
  apply (store_down_no_change
           {| runtime := Sample.rt; now := 2000; new_ObjectId := "65a000000000000000000009";
              upload_stream := upload_stream Sample.env; store_rejects := λ _, true |}
           (Sample.incoming (hero_id Sample.banner) [] None) Sample.world).
  intros op. reflexivity.
Defined.

(** *** Deletes *)

(** X17. Deleting is idempotent: once a delete of an id has been
    answered, a second delete of the same id, answered too, gives the
    same success message and leaves the world as the first delete left
    it.  This holds for Products and for HeroImages. *)
Theorem delete_twice (env1 env2 : Env) (r : Incoming) (w : World) :
  (store_rejects env1 (Op_Product_findByIdAndDelete (in_params_id r)) = false →
   store_rejects env2 (Op_Product_findByIdAndDelete (in_params_id r)) = false →
   Products (delete_api_products_id env1 r w).1 !! in_params_id r = None
   ∧ delete_api_products_id env2 r (delete_api_products_id env1 r w).1
     = ((delete_api_products_id env1 r w).1,
        {| status := 200; json := json_message "Product deleted" |}))
  ∧ (store_rejects env1 (Op_HeroImage_findByIdAndDelete (in_params_id r)) = false →
     store_rejects env2 (Op_HeroImage_findByIdAndDelete (in_params_id r)) = false →
     HeroImages (delete_api_hero_images_id env1 r w).1 !! in_params_id r = None
     ∧ delete_api_hero_images_id env2 r (delete_api_hero_images_id env1 r w).1
       = ((delete_api_hero_images_id env1 r w).1,
          {| status := 200; json := json_message "Hero image deleted" |})).
Proof.
  split; intros H1 H2.
  - unfold delete_api_products_id, delete_product. run. unfold Product_findByIdAndDelete.
    rewrite H1. simpl. rewrite H2. simpl. split; [apply lookup_delete_eq|].
    by rewrite delete_delete_eq.
  - unfold delete_api_hero_images_id, delete_hero. run. unfold HeroImage_findByIdAndDelete.
    rewrite H1. simpl. rewrite H2. simpl. split; [apply lookup_delete_eq|].
    by rewrite delete_delete_eq.
Qed.

Lemma delete_twice_witness :
  Products (delete_api_products_id Sample.env
              (Sample.incoming (_id Sample.chair) [] None) Sample.world).1
    !! _id Sample.chair = None
  ∧ delete_api_products_id Sample.env (Sample.incoming (_id Sample.chair) [] None)
      (delete_api_products_id Sample.env
         (Sample.incoming (_id Sample.chair) [] None) Sample.world).1
    = ((delete_api_products_id Sample.env
          (Sample.incoming (_id Sample.chair) [] None) Sample.world).1,
       {| status := 200; json := json_message "Product deleted" |}).
Proof.
  apply (delete_twice Sample.env Sample.env
           (Sample.incoming (_id Sample.chair) [] None) Sample.world); reflexivity.
Defined.

(** X18. After a delete that the store answered, the id is unknown to
    the other routes: toggling a deleted HeroImage, the lookup being
    answered, gets 404; updating a deleted Product without files, when
    the updateData casts to the schema and the store accepts the
    operation, gets 200 with a null body; neither changes the world, so
    neither brings the record back. *)
Theorem deleted_id_is_unknown (env1 env2 : Env) (r : Incoming) (w : World) :
  (store_rejects env1 (Op_HeroImage_findByIdAndDelete (in_params_id r)) = false →
   store_rejects env2 (Op_HeroImage_findById (in_params_id r)) = false →
   patch_api_hero_images_id_toggle env2 r (delete_api_hero_images_id env1 r w).1
   = ((delete_api_hero_images_id env1 r w).1,
      res_status_json 404 (json_error "Hero image not found")))
  ∧ (∀ upd,
       store_rejects env1 (Op_Product_findByIdAndDelete (in_params_id r)) = false →
       in_parts r = None ∨ in_parts r = Some [] →
       cast_update (runtime env2) (updateData_of_body env2 (in_body r)) = Some upd →
       store_rejects env2 (Op_Product_findByIdAndUpdate (in_params_id r) upd) = false →
       put_api_products_id env2 r (delete_api_products_id env1 r w).1
       = ((delete_api_products_id env1 r w).1, {| status := 200; json := json_null |})).
Proof.
  split.
  - intros H1 H2.
    destruct (delete_hero_cases env1 r w) as [E|E].
    { exfalso. revert E. unfold delete_api_hero_images_id, delete_hero. run.
      unfold HeroImage_findByIdAndDelete. by rewrite H1. }
    rewrite E. simpl. unfold patch_api_hero_images_id_toggle, toggle_hero. run.
    unfold HeroImage_findById. simpl. by rewrite H2, lookup_delete_eq.
  - intros upd H1 Hnone Hcast H2.
    destruct (delete_product_cases env1 r w) as [E|E].
    { exfalso. revert E. unfold delete_api_products_id, delete_product. run.
      unfold Product_findByIdAndDelete. by rewrite H1. }
    rewrite E. simpl. rewrite update_without_files_run by done.
    unfold update_commit. rewrite Hcast, H2. simpl. by rewrite lookup_delete_eq.
Qed.

Lemma deleted_id_is_unknown_witness :
  patch_api_hero_images_id_toggle Sample.env
    (Sample.incoming (hero_id Sample.banner) [] None)
    (delete_api_hero_images_id Sample.env
       (Sample.incoming (hero_id Sample.banner) [] None) Sample.world).1
  = ((delete_api_hero_images_id Sample.env
        (Sample.incoming (hero_id Sample.banner) [] None) Sample.world).1,
     res_status_json 404 (json_error "Hero image not found"))
  ∧ put_api_products_id Sample.env
      (Sample.incoming (_id Sample.chair)
         [("price", Js.Str "120"); ("quantity", Js.Str "120")] None)
      (delete_api_products_id Sample.env
         (Sample.incoming (_id Sample.chair)
            [("price", Js.Str "120"); ("quantity", Js.Str "120")] None) Sample.world).1
    = ((delete_api_products_id Sample.env
          (Sample.incoming (_id Sample.chair)
             [("price", Js.Str "120"); ("quantity", Js.Str "120")] None) Sample.world).1,
       {| status := 200; json := json_null |}).
Proof.
  split.
  - apply (deleted_id_is_unknown Sample.env Sample.env
             (Sample.incoming (hero_id Sample.banner) [] None) Sample.world); reflexivity.
  - eapply (deleted_id_is_unknown Sample.env Sample.env
              (Sample.incoming (_id Sample.chair)
                 [("price", Js.Str "120"); ("quantity", Js.Str "120")] None) Sample.world).
    + reflexivity.
    + left. reflexivity.
    + reflexivity.
    + reflexivity.
Defined.

(** *** Composing the product routes *)

(** In a list sorted newest first, a member that is strictly newer than
    every other member stands first. *)
Lemma newest_is_first (p x : Product) (rest : list Product) :
  StronglySorted newest_first (x :: rest) →
  p ∈ x :: rest →
  (∀ q, q ∈ x :: rest → q = p ∨ createdAt q < createdAt p) →
  x = p.
Proof.
  intros Hsorted Hp Hnewer.
  destruct (Hnewer x) as [->|Hlt]; [apply elem_of_cons; by left|done|].
  apply elem_of_cons in Hp as [->|Hp]; [done|].
  apply StronglySorted_inv in Hsorted as [_ Hall].
  rewrite Forall_forall in Hall. specialize (Hall p Hp). unfold newest_first in Hall. lia.
Qed.

(** X19. Creating a Product and then deleting the generated id is a
    round trip on the collection: when the create answered 201 and the
    delete is answered by the store, the Products are exactly those of
    before the create. *)
Theorem create_then_delete (env1 env2 : Env) (r1 r2 : Incoming) (w : World) :
  status (post_api_products env1 r1 w).2 = 201%nat →
  in_params_id r2 = new_ObjectId env1 →
  store_rejects env2 (Op_Product_findByIdAndDelete (in_params_id r2)) = false →
  (delete_api_products_id env2 r2 (post_api_products env1 r1 w).1).2
  = {| status := 200; json := json_message "Product deleted" |}
  ∧ Products (delete_api_products_id env2 r2 (post_api_products env1 r1 w).1).1
    = Products w.
Proof.
  intros H201 Hid Hok.
  destruct (create_product_cases env1 r1 w) as [(code & b & Hcode & E)|(fs & Hparts & Hlen)].
  { rewrite E in H201. simpl in H201. subst code. by destruct Hcode. }
  destruct (create_product_outcome env1 r1 w fs Hparts Hlen)
    as [E|(results & r0 & doc & _ & _ & _ & _ & Hfresh & E)]; rewrite E in H201 |- *;
    [done|].
  unfold delete_api_products_id, delete_product. run.
  unfold Product_findByIdAndDelete. rewrite Hok. simpl. split; [done|].
  rewrite Hid. by apply delete_insert_id.
Qed.

Lemma create_then_delete_witness :
  Products (delete_api_products_id Sample.env
              (Sample.incoming (new_ObjectId Sample.env) [] None)
              (post_api_products Sample.env
                 (Sample.incoming "" Sample.sofa (Some [Sample.photo "front"]))
                 Sample.world).1).1
  = Products Sample.world.
Proof.
  apply (create_then_delete Sample.env Sample.env
           (Sample.incoming "" Sample.sofa (Some [Sample.photo "front"]))
           (Sample.incoming (new_ObjectId Sample.env) [] None) Sample.world); reflexivity.
Defined.

(** X20. A Product just created is listed, and listed first when it is
    strictly newer than every stored Product: after a create answered
    201 at a time later than every stored createdAt, the listing, if the
    store answers it, starts with the created Product and holds one
    record more than the collection held before. *)
Theorem create_then_list (env1 env2 : Env) (r1 r2 : Incoming) (w : World) :
  status (post_api_products env1 r1 w).2 = 201%nat →
  (∀ id q, Products w !! id = Some q → createdAt q < now env1) →
  store_rejects env2 Op_Product_find = false →
  ∃ (p : Product) (rest : list Product),
    json (post_api_products env1 r1 w).2 = json_Product p
    ∧ (get_api_products env2 r2 (post_api_products env1 r1 w).1).2
      = {| status := 200; json := json_Products (p :: rest) |}
    ∧ length rest = size (Products w).
Proof.
  intros H201 Hnewer Hok.
  destruct (create_product_cases env1 r1 w) as [(code & b & Hcode & E)|(fs & Hparts & Hlen)].
  { rewrite E in H201. simpl in H201. subst code. by destruct Hcode. }
  destruct (create_product_outcome env1 r1 w fs Hparts Hlen)
    as [E|(results & r0 & doc & _ & _ & _ & _ & Hfresh & E)]; rewrite E in H201 |- *;
    [done|].
  simpl. rewrite list_products_run by done. simpl.
  set (p := stamp_new (now env1) doc).
  set (m := <[new_ObjectId env1 := p]> (Products w)).
  pose proof (merge_sort_Permutation newest_first (snd <$> map_to_list m)) as HP.
  pose proof (StronglySorted_merge_sort newest_first (snd <$> map_to_list m)) as HS.
  assert (length (merge_sort newest_first (snd <$> map_to_list m)) = S (size (Products w)))
    as Hlen'.
  { rewrite HP, length_fmap, length_map_to_list. by apply map_size_insert_None. }
  destruct (merge_sort newest_first (snd <$> map_to_list m)) as [|x rest] eqn:Hsort;
    [done|].
  assert (∀ q, q ∈ x :: rest → q = p ∨ createdAt q < createdAt p) as Hmax.
  { intros q Hq. rewrite HP in Hq. apply list_elem_of_fmap in Hq as ([id q'] & -> & Hq).
    apply elem_of_map_to_list in Hq. simpl. unfold m in Hq.
    apply lookup_insert_Some in Hq as [[_ <-]|[_ Hq]]; [by left|].
    right. apply (Hnewer id q' Hq). }
  assert (p ∈ x :: rest) as Hp.
  { rewrite HP. apply list_elem_of_fmap. exists (new_ObjectId env1, p). split; [done|].
    apply elem_of_map_to_list. apply lookup_insert_eq. }
  rewrite (newest_is_first p x rest HS Hp Hmax).
  exists p, rest. split; [done|]. split; [done|]. simpl in Hlen'. lia.
Qed.

Lemma create_then_list_witness :
  ∃ (p : Product) (rest : list Product),
    (get_api_products Sample.env (Sample.incoming "" [] None)
       (post_api_products Sample.env
          (Sample.incoming "" Sample.sofa (Some [Sample.photo "front"]))
          Sample.world).1).2
    = {| status := 200; json := json_Products (p :: rest) |}
    ∧ length rest = 2%nat.
Proof.
  destruct (create_then_list Sample.env Sample.env
              (Sample.incoming "" Sample.sofa (Some [Sample.photo "front"]))
              (Sample.incoming "" [] None) Sample.world)
    as (p & rest & _ & Hrun & Hlen).
  - reflexivity.
  - intros id q Hq. simpl in Hq.
    apply lookup_insert_Some in Hq as [[_ <-]|[_ Hq]]; [reflexivity|].
    apply lookup_singleton_Some in Hq as [_ <-]. reflexivity.
  - reflexivity.
  - exists p, rest. split; [exact Hrun|]. rewrite Hlen. reflexivity.
Defined.

(** *** More on the toggle *)

(** X21. When the toggle finds the HeroImage but the store refuses the
    save, the answer is 500 "Server error" and the world is as before:
    the negated flag stays in the handler's copy and the stored record
    keeps its isActive. *)
Theorem toggle_save_failure_500 (env : Env) (r : Incoming) (w : World) (h : HeroImage) :
  HeroImages w !! in_params_id r = Some h →
  store_rejects env (Op_HeroImage_findById (in_params_id r)) = false →
  store_rejects env (Op_HeroImage_save (flip_isActive h)) = true →
  patch_api_hero_images_id_toggle env r w
  = (w, res_status_json 500 (json_error "Server error")).
Proof.
  intros Hh Hfind Hsave. unfold patch_api_hero_images_id_toggle, toggle_hero. run.
  unfold HeroImage_findById. simpl. rewrite Hfind, Hh. simpl.
  unfold HeroImage_save. destruct (negb (validate_HeroImage _)); [done|].
  by rewrite Hsave.
Qed.

Lemma toggle_save_failure_500_witness :
  patch_api_hero_images_id_toggle
    {| runtime := Sample.rt; now := 2000; new_ObjectId := "65a000000000000000000009";
       upload_stream := upload_stream Sample.env;
       store_rejects := λ op, match op with Op_HeroImage_save _ => true | _ => false end |}
    (Sample.incoming (hero_id Sample.banner) [] None) Sample.world
  = (Sample.world, res_status_json 500 (json_error "Server error")).
Proof.
  apply (toggle_save_failure_500
           {| runtime := Sample.rt; now := 2000; new_ObjectId := "65a000000000000000000009";
              upload_stream := upload_stream Sample.env;
              store_rejects := λ op,
                match op with Op_HeroImage_save _ => true | _ => false end |}
           (Sample.incoming (hero_id Sample.banner) [] None) Sample.world Sample.banner);
    reflexivity.
Defined.

(** X22. The toggle never creates and never removes a HeroImage: after
    it, whatever the store answers, the stored ids are those of before,
    and so is their number. *)
Theorem toggle_keeps_ids (env : Env) (r : Incoming) (w : World) :
  dom (HeroImages (patch_api_hero_images_id_toggle env r w).1) = dom (HeroImages w)
  ∧ size (HeroImages (patch_api_hero_images_id_toggle env r w).1) = size (HeroImages w).
Proof.
  destruct (toggle_hero_cases env r w) as [->|[[_ ->]|(h & _ & Hsome & ->)]]; [done..|].
  simpl.
  assert (dom (<[hero_id h := hero_stamp_modified (now env) (flip_isActive h)]>
                 (HeroImages w)) = dom (HeroImages w)) as Hdom
    by (by apply dom_insert_lookup_L).
  split; [done|]. by rewrite <- !size_dom, Hdom.
Qed.

(** X24. Creating a HeroImage and then toggling the generated id: when
    the create is answered 201 and the toggle 200, the stored isActive
    is the negation of what the create persisted, that is, true exactly
    when the submitted isActive was neither the text "true" nor the
    boolean true; createdAt is the time of the create and updatedAt the
    time of the toggle. *)
Theorem create_hero_then_toggle (env1 env2 : Env) (r1 r2 : Incoming) (w : World) :
  status (post_api_hero_images env1 r1 w).2 = 201%nat →
  in_params_id r2 = new_ObjectId env1 →
  status (patch_api_hero_images_id_toggle env2 r2 (post_api_hero_images env1 r1 w).1).2
  = 200%nat →
  ∃ h : HeroImage,
    (patch_api_hero_images_id_toggle env2 r2 (post_api_hero_images env1 r1 w).1).2
    = {| status := 200; json := json_HeroImage h |}
    ∧ HeroImages (patch_api_hero_images_id_toggle env2 r2
                    (post_api_hero_images env1 r1 w).1).1
      = <[new_ObjectId env1 := h]> (HeroImages w)
    ∧ isActive h
      = negb (Js.strict_eq (get (in_body r1) "isActive") (Js.Str "true")
              || Js.strict_eq (get (in_body r1) "isActive") (Js.Bool true))
    ∧ hero_createdAt h = now env1
    ∧ hero_updatedAt h = now env2.
Proof.
  intros H201 Hid.
  destruct (create_hero_cases env1 r1 w) as [(code & b & Hcode & E)|(f & Hparts)].
  { rewrite E in H201. simpl in H201. subst code. by destruct Hcode. }
  destruct (create_hero_outcome env1 r1 w f Hparts)
    as [E|(result & _ & _ & _ & Hfresh & E)]; rewrite E in H201 |- *; [done|].
  cbn [fst snd].
  set (h0 := hero_stamp_new (now env1) (hero_of_body env1 (in_body r1) result)).
  set (w1 := set_HeroImages _ _).
  destruct (toggle_hero_cases env2 r2 w1) as [->|[[_ ->]|(h & Hh & _ & ->)]]; [done..|].
  intros _. unfold w1 in Hh. simpl in Hh. rewrite Hid, lookup_insert_eq in Hh.
  injection Hh as <-. eexists. split; [reflexivity|]. simpl.
  split; [by rewrite insert_insert_eq|]. done.
Qed.

Lemma create_hero_then_toggle_witness :
  ∃ h : HeroImage,
    (patch_api_hero_images_id_toggle Sample.env
       (Sample.incoming (new_ObjectId Sample.env) [] None)
       (post_api_hero_images Sample.env
          (Sample.incoming "" [("isActive", Js.Str "true")] (Some [Sample.photo "hero"]))
          Sample.world).1).2
    = {| status := 200; json := json_HeroImage h |}
    ∧ isActive h = false.
Proof.
  destruct (create_hero_then_toggle Sample.env Sample.env
              (Sample.incoming "" [("isActive", Js.Str "true")] (Some [Sample.photo "hero"]))
              (Sample.incoming (new_ObjectId Sample.env) [] None) Sample.world)
    as (h & Hrun & _ & Hact & _).
  - reflexivity.
  - reflexivity.
  - reflexivity.
  - exists h. split; [exact Hrun|]. rewrite Hact. reflexivity.
Defined.

(** *** The store invariant *)

Lemma empty_world_ok : World_ok {| Products := ∅; HeroImages := ∅; cloudinary := [] |}.
Proof. split; apply map_Forall_empty. Qed.

Lemma set_cloudinary_ok (w : World) (log : list UploadCall) :
  World_ok w → World_ok (set_cloudinary log w).
Proof. by intros [??]. Qed.

Lemma set_Products_ok (w : World) (id : ObjectId) (p : Product) :
  World_ok w → _id p = id → World_ok (set_Products (<[id := p]> (Products w)) w).
Proof.
  intros [HP HH] Hid. split; simpl; [|done]. by apply map_Forall_insert_2.
Qed.

Lemma same_collections_ok (w w1 : World) :
  Products w1 = Products w → HeroImages w1 = HeroImages w → World_ok w → World_ok w1.
Proof. intros HP HH [??]. split; by rewrite ?HP, ?HH. Qed.

(** X23. Each of the eight routes keeps every document stored under its
    own id, whatever the request, the uploads and the store do. *)
Lemma routes_preserve_World_ok (env : Env) (r : Incoming) (w : World) :
  World_ok w →
  World_ok (post_api_products env r w).1
  ∧ World_ok (get_api_products env r w).1
  ∧ World_ok (delete_api_products_id env r w).1
  ∧ World_ok (put_api_products_id env r w).1
  ∧ World_ok (post_api_hero_images env r w).1
  ∧ World_ok (get_api_hero_images env r w).1
  ∧ World_ok (patch_api_hero_images_id_toggle env r w).1
  ∧ World_ok (delete_api_hero_images_id env r w).1.
Proof.
  intros Hw. split_and!.
  - destruct (create_product_cases env r w) as [(code & b & _ & ->)|(fs & Hp & Hl)]; [done|].
    destruct (create_product_outcome env r w fs Hp Hl)
      as [->|(results & r0 & doc & _ & _ & Hv & _ & _ & ->)];
      [by apply set_cloudinary_ok|].
    destruct (validate_Product_Some _ _ _ Hv) as (Hid & _). simpl in Hid.
    destruct Hw as [HP HH]. split; simpl; [by apply map_Forall_insert_2|done].
  - by destruct (list_products_cases env r w) as [->|[ps ->]].
  - destruct (delete_product_cases env r w) as [->| ->]; [done|].
    destruct Hw as [HP HH]. split; simpl; [by apply map_Forall_delete|done].
  - destruct (update_product_cases env r w)
      as [->|(w1 & HP & HH & _ & [->|(upd0 & _ & ->)])];
      [done|by apply (same_collections_ok w)|].
    pose proof (same_collections_ok w w1 HP HH Hw) as Hw1.
    destruct (update_commit_cases env (in_params_id r) upd0 w1)
      as [->|(upd & _ & _ & [[_ ->]|(q & Hq & ->)])]; [done..|].
    apply set_Products_ok; [done|]. simpl. destruct Hw1 as [HP1 _].
    apply (map_Forall_lookup_1 _ _ _ _ HP1 Hq).
  - destruct (create_hero_cases env r w) as [(code & b & _ & ->)|(f & Hp)]; [done|].
    destruct (create_hero_outcome env r w f Hp) as [->|(result & _ & _ & _ & _ & ->)];
      [by apply set_cloudinary_ok|].
    destruct Hw as [HP HH]. split; simpl; [done|by apply map_Forall_insert_2].
  - by destruct (list_heroes_cases env r w) as [->|[hs ->]].
  - destruct (toggle_hero_cases env r w) as [->|[[_ ->]|(h & _ & _ & ->)]]; [done..|].
    by apply set_HeroImages_ok.
  - destruct (delete_hero_cases env r w) as [->| ->]; [done|].
    destruct Hw as [HP HH]. split; simpl; [done|by apply map_Forall_delete].
Qed.

Lemma routes_preserve_World_ok_witness :
  World_ok (post_api_products Sample.env
              (Sample.incoming "" [("name", Js.Str "Sofa")] (Some [Sample.photo "front"]))
              Sample.world).1
  ∧ World_ok (patch_api_hero_images_id_toggle Sample.env
                (Sample.incoming (hero_id Sample.banner) [] None) Sample.world).1.
Proof.
  split.
  - apply (routes_preserve_World_ok Sample.env
             (Sample.incoming "" [("name", Js.Str "Sofa")] (Some [Sample.photo "front"]))
             Sample.world). exact sample_world_ok.
  - apply (routes_preserve_World_ok Sample.env
             (Sample.incoming (hero_id Sample.banner) [] None) Sample.world).
    exact sample_world_ok.
Defined.

(** *** When a create is answered 201 *)

(** The create route answers 201 as soon as every upload resolves, the
    document passes validation, the store accepts its save and the
    generated id is free. *)
Lemma create_product_succeeds (env : Env) (r : Incoming) (w : World) (fs : list File)
    (results : list UploadResult) (r0 : UploadResult) (doc : Product) :
  in_parts r = Some fs →
  (1 ≤ length fs ≤ 5)%nat →
  settle_all env (cloudinary w) "maison_products" fs = Resolved <$> results →
  results !! 0%nat = Some r0 →
  validate_Product (runtime env) (product_of_body env (in_body r) (secure_url r0) results)
  = Some doc →
  store_rejects env (Op_Product_save doc) = false →
  Products w !! new_ObjectId env = None →
  status (post_api_products env r w).2 = 201%nat.
Proof.
  intros Hparts Hlen Hres H0 Hv Hok Hfresh.
  rewrite (create_product_run env r w fs Hparts Hlen), Hres, Promise_all_resolved, H0, Hv,
    Hok, Hfresh. done.
Qed.

Lemma create_hero_succeeds (env : Env) (r : Incoming) (w : World) (f : File)
    (result : UploadResult) :
  in_parts r = Some [f] →
  settle env (cloudinary w) "maison_hero" f = Resolved result →
  secure_url result ≠ "" →
  store_rejects env (Op_HeroImage_save (hero_of_body env (in_body r) result)) = false →
  HeroImages w !! new_ObjectId env = None →
  status (post_api_hero_images env r w).2 = 201%nat.
Proof.
  intros Hparts Hres Hurl Hok Hfresh.
  rewrite (create_hero_run env r w f Hparts), Hres. simpl.
  unfold validate_HeroImage. simpl. apply String.eqb_neq in Hurl. rewrite Hurl. simpl.
  by rewrite Hok, Hfresh.
Qed.
